(** * Manifest bundling: resolution, validation, sorting

    A shallow embedding of [src/compiler/bundle/bundle.ts] and the
    properties of its four synchronous steps and of the orchestrator
    that sequences them.

    Conventions of the embedding:
    - a JavaScript array is a [list]; [push] appends at the end;
    - an optional field ([encapsulation?], [stylesMeta?], [components?])
      is an [option], [None] standing for [undefined];
    - a callback or a step that may throw returns in an error monad;
    - [Array.prototype.sort] is the stable sort of the language
      standard, driven by the comparator's sign;
    - the bundle objects of an array are distinct objects (the
      resolver creates one per declaration, the validator one per
      overflow group), so an array of bundles is a list of records and
      an assignment to a field of one of them is a record update. *)

From Stdlib Require Import List String Ascii ZArith Bool Arith Lia.
From Stdlib Require Import Sorting.Sorted Sorting.Permutation.
From Stdlib Require Import Structures.OrderedTypeEx.
Import ListNotations.

Local Open Scope string_scope.
Local Open Scope list_scope.

(* ================================================================== *)
(** ** JavaScript runtime pieces used by the bundler *)

Module Js.

(** A computation that either returns or throws. *)
Inductive Exn (A : Type) : Type :=
| Return (a : A)
| Throw (e : string).
Arguments Return {A} a.
Arguments Throw {A} e.

Definition bind {A B} (c : Exn A) (k : A -> Exn B) : Exn B :=
  match c with
  | Return a => k a
  | Throw e => Throw e
  end.

Notation "x <- c ;; k" := (bind c (fun x => k))
  (at level 61, c at next level, right associativity).

Section Sort.
Context {A : Type}.

(** [compareFn a b <= 0] keeps [a] in front of [b]. *)
Section Total.
Variable compareFn : A -> A -> Z.

(** The comparator lets [a] stay in front of [b]. *)
Definition keeps (a b : A) : Prop := (compareFn a b <= 0)%Z.

Fixpoint insert (x : A) (l : list A) : list A :=
  match l with
  | [] => [x]
  | y :: l' =>
      if (compareFn x y <=? 0)%Z then x :: y :: l'
      else y :: insert x l'
  end.

Fixpoint sort (l : list A) : list A :=
  match l with
  | [] => []
  | x :: l' => insert x (sort l')
  end.
End Total.

(** The same sort when the comparator itself may throw. *)
Section Throwing.
Variable compareFn : A -> A -> Exn Z.

(** The comparison goes through and lets [a] stay in front of [b]. *)
Definition keepsM (a b : A) : Prop :=
  exists z, compareFn a b = Return z /\ (z <= 0)%Z.

Fixpoint insertM (x : A) (l : list A) : Exn (list A) :=
  match l with
  | [] => Return [x]
  | y :: l' =>
      c <- compareFn x y ;;
      if (c <=? 0)%Z then Return (x :: y :: l')
      else (r <- insertM x l' ;; Return (y :: r))
  end.

Fixpoint sortM (l : list A) : Exn (list A) :=
  match l with
  | [] => Return []
  | x :: l' => s <- sortM l' ;; insertM x s
  end.
End Throwing.
End Sort.

(** [a < b] on strings. *)
Definition lt (a b : string) : bool := String.ltb a b.
(** [a > b] on strings. *)
Definition gt (a b : string) : bool := String.ltb b a.

End Js.

Import Js.

(* ================================================================== *)
(** ** Data model *)

(** Modelled from the spec: the enumeration [ENCAPSULATION] is imported
    from [util/constants], which is not part of the sources. The code
    names [ScopedCss] and [ShadowDom]; the third member is the
    none/plain mode of the closed enumeration of modes. *)
Inductive ENCAPSULATION : Type :=
| NoEncapsulation
| ShadowDom
| ScopedCss.

(** The style table of a component; only its presence is inspected. *)
Definition StylesMeta : Type := list string.

(** Modelled from the spec: the record types below are imported from
    [util/interfaces], which is not part of the sources. Their fields
    are the ones the bundler reads and writes. A module record carries
    a tag name, an encapsulation mode and its styles if it declares
    any; [encapsulation] may be unset, which is what the classifier's
    first bucket (neither scoped nor shadow) allows for. *)
Record ComponentMeta : Type := mkComponentMeta {
  tagNameMeta : string;
  encapsulation : option ENCAPSULATION;
  stylesMeta : option StylesMeta
}.

Record ModuleFile : Type := mkModuleFile {
  cmpMeta : ComponentMeta
}.

Record ManifestBundle : Type := mkManifestBundle {
  moduleFiles : list ModuleFile;
  compiledModuleText : string
}.

(** A user declaration: an ordered list of tag names, if any. *)
Record Bundle : Type := mkBundle {
  components : option (list string)
}.

(** Modelled from the spec: a record of the diagnostics sink,
    [{level: info|warning|error, type, header, message}]. *)
Inductive Level : Type := LevelInfo | LevelWarn | LevelError.

Record Diagnostic : Type := mkDiagnostic {
  level : Level;
  type : string;
  header : string;
  messageText : string
}.

(** Strict equality [===] on the value of an [encapsulation] field. *)
Definition enc_eqb (a b : option ENCAPSULATION) : bool :=
  match a, b with
  | None, None => true
  | Some NoEncapsulation, Some NoEncapsulation => true
  | Some ShadowDom, Some ShadowDom => true
  | Some ScopedCss, Some ScopedCss => true
  | _, _ => false
  end.

(** [a === b] where [b] may also be [null] (the outer [None]). *)
Definition enc_eqb_nullable (a : option ENCAPSULATION)
    (b : option (option ENCAPSULATION)) : bool :=
  match b with
  | Some b' => enc_eqb a b'
  | None => false
  end.

(** Truthiness of [cmpMeta.stylesMeta]. *)
Definition hasStyles (m : ModuleFile) : bool :=
  match stylesMeta (cmpMeta m) with
  | Some _ => true
  | None => false
  end.

Definition tagOf (m : ModuleFile) : string := tagNameMeta (cmpMeta m).
Definition encOf (m : ModuleFile) : option ENCAPSULATION :=
  encapsulation (cmpMeta m).

(** [m.moduleFiles = l] on a bundle object: the other fields stay. *)
Definition setModuleFiles (b : ManifestBundle) (l : list ModuleFile)
  : ManifestBundle :=
  {| moduleFiles := l; compiledModuleText := compiledModuleText b |}.

Definition createManifestBundle (moduleFiles : list ModuleFile)
  : ManifestBundle :=
  {| moduleFiles := moduleFiles; compiledModuleText := EmptyString |}.

(* ================================================================== *)
(** ** Encapsulation classifier *)

Definition isScopedCss (m : ModuleFile) : bool :=
  enc_eqb (encOf m) (Some ScopedCss).
Definition isShadowDom (m : ModuleFile) : bool :=
  enc_eqb (encOf m) (Some ShadowDom).
Definition isPlainCss (m : ModuleFile) : bool :=
  negb (isScopedCss m) && negb (isShadowDom m).

(** The comparator handed to [sort]: larger arrays first. *)
Definition bySizeDesc (a b : list ModuleFile) : Z :=
  if (List.length a <? List.length b)%nat then 1%Z
  else if (List.length b <? List.length a)%nat then (-1)%Z
  else 0%Z.

Definition findPrimaryEncapsulation (moduleFiles : list ModuleFile)
  : option (option ENCAPSULATION) :=
  let plainCssCmps := filter isPlainCss moduleFiles in
  let scopedCssCmps := filter isScopedCss moduleFiles in
  let shadowCssCmps := filter isShadowDom moduleFiles in
  let sorted :=
    Js.sort bySizeDesc [plainCssCmps; scopedCssCmps; shadowCssCmps] in
  match sorted with
  | (m0 :: _) :: _ => Some (encOf m0)
  | _ => None
  end.

(* ================================================================== *)
(** ** Bundle validator *)

(** The four local arrays filled by the classification loop. *)
Record Groups : Type := mkGroups {
  primaryCss : list ModuleFile;
  scopedCss : list ModuleFile;
  shadowCss : list ModuleFile;
  plainCss : list ModuleFile
}.

Definition noGroups : Groups :=
  {| primaryCss := []; scopedCss := []; shadowCss := []; plainCss := [] |}.

Definition inPrimary (primaryEncapsulation : option (option ENCAPSULATION))
    (m : ModuleFile) : bool :=
  enc_eqb_nullable (encOf m) primaryEncapsulation || negb (hasStyles m).

(** One iteration of the [forEach] body. *)
Definition classify (primaryEncapsulation : option (option ENCAPSULATION))
    (g : Groups) (moduleFile : ModuleFile) : Groups :=
  if inPrimary primaryEncapsulation moduleFile then
    {| primaryCss := primaryCss g ++ [moduleFile]; scopedCss := scopedCss g;
       shadowCss := shadowCss g; plainCss := plainCss g |}
  else if isScopedCss moduleFile then
    {| primaryCss := primaryCss g; scopedCss := scopedCss g ++ [moduleFile];
       shadowCss := shadowCss g; plainCss := plainCss g |}
  else if isShadowDom moduleFile then
    {| primaryCss := primaryCss g; scopedCss := scopedCss g;
       shadowCss := shadowCss g ++ [moduleFile]; plainCss := plainCss g |}
  else
    {| primaryCss := primaryCss g; scopedCss := scopedCss g;
       shadowCss := shadowCss g; plainCss := plainCss g ++ [moduleFile] |}.

(** [if (l.length) out.push(b)]. *)
Definition pushIfAny (out : list ManifestBundle) (l : list ModuleFile)
    (b : ManifestBundle) : list ManifestBundle :=
  match l with
  | [] => out
  | _ :: _ => out ++ [b]
  end.

Definition validateManifestBundle (validatedBundles : list ManifestBundle)
    (manifestBundle : ManifestBundle) : list ManifestBundle :=
  match moduleFiles manifestBundle with
  | [] => validatedBundles
  | [_] => validatedBundles ++ [manifestBundle]
  | _ :: _ :: _ =>
      let primaryEncapsulation :=
        findPrimaryEncapsulation (moduleFiles manifestBundle) in
      let g := fold_left (classify primaryEncapsulation)
                 (moduleFiles manifestBundle) noGroups in
      let out := validatedBundles in
      let out := pushIfAny out (primaryCss g)
                   (setModuleFiles manifestBundle (primaryCss g)) in
      let out := pushIfAny out (scopedCss g)
                   (createManifestBundle (scopedCss g)) in
      let out := pushIfAny out (shadowCss g)
                   (createManifestBundle (shadowCss g)) in
      pushIfAny out (plainCss g) (createManifestBundle (plainCss g))
  end.

Definition validateBundleModules (manifestBundles : list ManifestBundle)
  : list ManifestBundle :=
  fold_left validateManifestBundle manifestBundles [].

(* ================================================================== *)
(** ** Deterministic sorter *)

(** Comparator of the module-level sort. *)
Definition byTagName (a b : ModuleFile) : Z :=
  if Js.lt (tagOf a) (tagOf b) then (-1)%Z
  else if Js.gt (tagOf a) (tagOf b) then 1%Z
  else 0%Z.

(** [b.moduleFiles[0].cmpMeta.tagNameMeta]: reading [cmpMeta] of the
    [undefined] first element of an empty array throws. *)
Definition firstTagName (b : ManifestBundle) : Exn string :=
  match moduleFiles b with
  | m :: _ => Return (tagOf m)
  | [] => Throw "TypeError"
  end.

(** Comparator of the bundle-level sort. *)
Definition byFirstTagName (a b : ManifestBundle) : Exn Z :=
  ta <- firstTagName a ;;
  tb <- firstTagName b ;;
  Return (if Js.lt ta tb then (-1)%Z
          else if Js.gt ta tb then 1%Z
          else 0%Z).

Definition sortModuleFiles (m : ManifestBundle) : ManifestBundle :=
  setModuleFiles m (Js.sort byTagName (moduleFiles m)).

Definition sortBundles (manifestBundles : list ManifestBundle)
  : Exn (list ManifestBundle) :=
  let manifestBundles := map sortModuleFiles manifestBundles in
  Js.sortM byFirstTagName manifestBundles.

(* ================================================================== *)
(** ** Tag resolver *)

(** [a[i].messageText = msg] on the diagnostics array. *)
Fixpoint setMessageText (i : nat) (msg : string) (a : list Diagnostic)
  : list Diagnostic :=
  match a, i with
  | [], _ => []
  | d :: a', O =>
      {| level := level d; type := type d; header := header d;
         messageText := msg |} :: a'
  | d :: a', S i' => d :: setMessageText i' msg a'
  end.

(** Modelled from the spec: [buildError] of [compiler/util] is imported
    but its body is not part of the sources. Per the diagnostics sink of
    the external interfaces it appends one fresh [error]-level record
    [{level, type, header, message}] to the array it is given and
    returns that record; the record is returned here as its index in
    the array, so that the caller's assignment reaches the stored
    object. The texts it starts with do not depend on the caller. *)
Definition buildError (diagnostics : list Diagnostic)
  : list Diagnostic * nat :=
  (diagnostics ++
     [{| level := LevelError; type := "build"; header := "build error";
         messageText := "build error" |}],
   List.length diagnostics).

Definition dquote : string := String "034"%char EmptyString.

(** The template literal of the missing-component message. *)
Definition missingTagMessage (tag : string) : string :=
  ("Component tag " ++ dquote ++ tag ++ dquote ++
   " is defined in a bundle but no matching component was found within this app or its collections.")%string.

(** [b.components && b.components.length]. *)
Definition hasComponents (b : Bundle) : bool :=
  match components b with
  | Some (_ :: _) => true
  | _ => false
  end.

Definition componentsOf (b : Bundle) : list string :=
  match components b with
  | Some l => l
  | None => []
  end.

Definition findModule (moduleFiles : list ModuleFile) (tag : string)
  : option ModuleFile :=
  find (fun modulesFile => String.eqb (tagOf modulesFile) tag) moduleFiles.

(** Body of the inner [forEach]: the state is the bundle being filled
    and the diagnostics array. *)
Definition resolveTag (allModuleFiles : list ModuleFile)
    (st : ManifestBundle * list Diagnostic) (tag : string)
  : ManifestBundle * list Diagnostic :=
  let (manifestBundle, diagnostics) := st in
  match findModule allModuleFiles tag with
  | Some cmpMeta =>
      (setModuleFiles manifestBundle (moduleFiles manifestBundle ++ [cmpMeta]),
       diagnostics)
  | None =>
      let (diagnostics, d) := buildError diagnostics in
      (manifestBundle, setMessageText d (missingTagMessage tag) diagnostics)
  end.

(** Body of the outer [forEach]. *)
Definition resolveBundle (allModuleFiles : list ModuleFile)
    (st : list ManifestBundle * list Diagnostic) (bundle : Bundle)
  : list ManifestBundle * list Diagnostic :=
  let (manifestBundles, diagnostics) := st in
  let (manifestBundle, diagnostics) :=
    fold_left (resolveTag allModuleFiles) (componentsOf bundle)
      (createManifestBundle [], diagnostics) in
  if (0 <? List.length (moduleFiles manifestBundle))%nat
  then (manifestBundles ++ [manifestBundle], diagnostics)
  else (manifestBundles, diagnostics).

(** Returns the bundles together with the diagnostics array as the
    call leaves it. *)
Definition getManifestBundles (allModuleFiles : list ModuleFile)
    (bundles : list Bundle) (diagnostics : list Diagnostic)
  : list ManifestBundle * list Diagnostic :=
  fold_left (resolveBundle allModuleFiles)
    (filter hasComponents bundles) ([], diagnostics).

(* ================================================================== *)
(** ** Orchestrator *)

(** Modelled from the spec: [BuildContext] and [BuildConfig] are
    imported from [util/interfaces], which is not part of the sources;
    the fields are the ones [bundle] reads and writes. *)
Record Manifest : Type := mkManifest {
  modulesFiles : list ModuleFile;
  bundles : list Bundle
}.

Record BuildContext : Type := mkBuildContext {
  diagnostics : list Diagnostic;
  manifest : Manifest;
  manifestBundles : list ManifestBundle
}.

Record BuildConfig : Type := mkBuildConfig {
  generateWWW : bool;
  generateDistribution : bool;
  buildDir : string;
  distDir : string
}.

(** What a run can change: the build context and the lines handed to
    [config.logger]. *)
Record World : Type := mkWorld {
  ctx : BuildContext;
  logged : list string
}.

Module Build.

(** A step reads and updates the world and returns or throws. *)
Definition M (A : Type) : Type := World -> Exn A * World.

Definition ret {A} (a : A) : M A := fun w => (Return a, w).

Definition bind {A B} (c : M A) (k : A -> M B) : M B :=
  fun w =>
    match c w with
    | (Return a, w') => k a w'
    | (Throw e, w') => (Throw e, w')
    end.

(** [try { body } catch (e) { handler(e) }]. *)
Definition tryCatch (body : M unit) (handler : string -> M unit) : M unit :=
  fun w =>
    match body w with
    | (Return tt, w') => (Return tt, w')
    | (Throw e, w') => handler e w'
    end.

Definition getCtx : M BuildContext := fun w => (Return (ctx w), w).

Definition putCtx (c : BuildContext) : M unit :=
  fun w => (Return tt, {| ctx := c; logged := logged w |}).

Definition log (line : string) : M unit :=
  fun w => (Return tt, {| ctx := ctx w; logged := logged w ++ [line] |}).

(** A value or an exception computed without touching the world. *)
Definition lift {A} (c : Exn A) : M A := fun w => (c, w).

Definition when (b : bool) (c : M unit) : M unit :=
  if b then c else ret tt.

Notation "x <~ c ;; k" := (bind c (fun x => k))
  (at level 61, c at next level, right associativity).
Notation "c ;;; k" := (bind c (fun _ => k))
  (at level 61, right associativity).

End Build.

Import Build.

Definition setManifestBundles (c : BuildContext) (l : list ManifestBundle)
  : BuildContext :=
  {| diagnostics := diagnostics c; manifest := manifest c;
     manifestBundles := l |}.

Definition setDiagnostics (c : BuildContext) (d : list Diagnostic)
  : BuildContext :=
  {| diagnostics := d; manifest := manifest c;
     manifestBundles := manifestBundles c |}.

(** Modelled from the spec: [hasError] of [compiler/util] is imported
    but its body is not part of the sources. Per the orchestrator's
    contract it tells whether the build already carries a fatal
    diagnostic, that is one of level [error]. *)
Definition hasError (diagnostics : list Diagnostic) : bool :=
  existsb (fun d => match level d with LevelError => true | _ => false end)
    diagnostics.

(** Modelled from the spec: [catchError] of [compiler/util] is imported
    but its body is not part of the sources. Per the error-handling
    design it converts the caught exception into one [error]-level
    diagnostic appended to the array. *)
Definition catchError (diagnostics : list Diagnostic) (e : string)
  : list Diagnostic :=
  diagnostics ++
    [{| level := LevelError; type := "build"; header := "build error";
        messageText := e |}].

Section Orchestrator.

(** The downstream collaborators are imported from other files: each
    is given the configuration, the context and the bundles, may
    update the context and may throw (a rejected promise, once
    awaited, throws). *)
Definition Collaborator : Type :=
  BuildConfig -> list ManifestBundle -> Build.M unit.

Variable upgradeDependentComponents : Collaborator.
(** [Promise.all([bundleStyles(..), bundleModules(..)])] taken as one
    awaited step: it returns when both are done and throws when one
    of them rejects; how the two interleave is left open. *)
Variable bundleStylesAndModules : Collaborator.
Variable generateBundles : Collaborator.

(** The statements inside [try]. *)
Definition bundleBody (config : BuildConfig) : Build.M unit :=
  c <~ getCtx ;;
  let (mbs, diags) :=
    getManifestBundles (modulesFiles (manifest c)) (bundles (manifest c))
      (diagnostics c) in
  putCtx (setManifestBundles (setDiagnostics c diags) mbs) ;;;
  c <~ getCtx ;;
  putCtx (setManifestBundles c (validateBundleModules (manifestBundles c))) ;;;
  c <~ getCtx ;;
  sorted <~ lift (sortBundles (manifestBundles c)) ;;
  putCtx (setManifestBundles c sorted) ;;;
  c <~ getCtx ;;
  upgradeDependentComponents config (manifestBundles c) ;;;
  c <~ getCtx ;;
  bundleStylesAndModules config (manifestBundles c) ;;;
  c <~ getCtx ;;
  generateBundles config (manifestBundles c).

Definition bundle (config : BuildConfig) : Build.M unit :=
  c <~ getCtx ;;
  if hasError (diagnostics c) then ret tt
  else
    when (generateWWW config)
      (log ("bundle, buildDir: " ++ buildDir config)%string) ;;;
    when (generateDistribution config)
      (log ("bundle, distDir: " ++ distDir config)%string) ;;;
    log "bundle started" ;;;
    tryCatch (bundleBody config)
      (fun e =>
         c <~ getCtx ;;
         putCtx (setDiagnostics c (catchError (diagnostics c) e))) ;;;
    log "bundle finished".

End Orchestrator.

(* ================================================================== *)
(** ** Vocabulary of the properties *)

(** The three modes a bundle can be built around. A module whose
    [encapsulation] is unset counts as [ModeNone], as it does in the
    classifier's first bucket. *)
Inductive EncapsulationMode : Type := ModeNone | ModeScoped | ModeShadow.

Definition modeOf (e : option ENCAPSULATION) : EncapsulationMode :=
  match e with
  | Some ScopedCss => ModeScoped
  | Some ShadowDom => ModeShadow
  | Some NoEncapsulation | None => ModeNone
  end.

Definition mode_eqb (a b : EncapsulationMode) : bool :=
  match a, b with
  | ModeNone, ModeNone | ModeScoped, ModeScoped | ModeShadow, ModeShadow => true
  | _, _ => false
  end.

(** Size of a mode's bucket. *)
Definition votes (w : EncapsulationMode) (l : list ModuleFile) : nat :=
  List.length (filter (fun m => mode_eqb (modeOf (encOf m)) w) l).

(** Rank in the fixed preference [None], [Scoped], [Shadow]. *)
Definition preference (w : EncapsulationMode) : nat :=
  match w with
  | ModeNone => 0
  | ModeScoped => 1
  | ModeShadow => 2
  end.

(** The value read off the first module of a bucket. *)
Definition firstEnc (bucket : list ModuleFile)
  : option (option ENCAPSULATION) :=
  match bucket with
  | m0 :: _ => Some (encOf m0)
  | [] => None
  end.

(** Any two styled modules of the list have the same mode. *)
Definition oneModeAmongStyled (l : list ModuleFile) : Prop :=
  forall m1 m2, In m1 l -> In m2 l ->
    hasStyles m1 = true -> hasStyles m2 = true ->
    modeOf (encOf m1) = modeOf (encOf m2).

(** Every module of the list has its [encapsulation] set. *)
Definition classified (l : list ModuleFile) : Prop :=
  forall m, In m l -> encOf m <> None.

Definition totalModules (bs : list ManifestBundle) : nat :=
  list_sum (map (fun b => List.length (moduleFiles b)) bs).

Definition allModules (bs : list ManifestBundle) : list ModuleFile :=
  flat_map moduleFiles bs.

(** Membership tests of the three overflow groups. *)
Definition toScoped (p : option (option ENCAPSULATION)) (m : ModuleFile)
  : bool := negb (inPrimary p m) && isScopedCss m.
Definition toShadow (p : option (option ENCAPSULATION)) (m : ModuleFile)
  : bool := negb (inPrimary p m) && negb (isScopedCss m) && isShadowDom m.
Definition toPlain (p : option (option ENCAPSULATION)) (m : ModuleFile)
  : bool :=
  negb (inPrimary p m) && negb (isScopedCss m) && negb (isShadowDom m).

(** A brand-new bundle for a group, none for an empty group. *)
Definition newBundle (l : list ModuleFile) : list ManifestBundle :=
  match l with
  | [] => []
  | _ :: _ => [createManifestBundle l]
  end.

(** Ascending order of tag names. *)
Definition tagLe (a b : ModuleFile) : Prop :=
  String.leb (tagOf a) (tagOf b) = true.

(** Ascending order of the first modules' tag names. *)
Definition firstTagLe (a b : ManifestBundle) : Prop :=
  match moduleFiles a, moduleFiles b with
  | m :: _, n :: _ => tagLe m n
  | _, _ => False
  end.

(** The modules a declaration's tags resolve to, in declaration order. *)
Definition resolved (allModuleFiles : list ModuleFile) (tags : list string)
  : list ModuleFile :=
  flat_map (fun tag => match findModule allModuleFiles tag with
                       | Some m => [m]
                       | None => []
                       end) tags.

Definition matches (allModuleFiles : list ModuleFile) (tag : string) : bool :=
  match findModule allModuleFiles tag with
  | Some _ => true
  | None => false
  end.

(** Some module of the list carries the tag: the tag matches an
    existing module. Stated on the list itself, without the lookup. *)
Definition carried (allModuleFiles : list ModuleFile) (tag : string) : bool :=
  existsb (fun m => String.eqb (tagOf m) tag) allModuleFiles.

(** [m] is the first module of the list that carries the tag: it sits
    in the list, and no module before it has that tag. *)
Definition firstCarrying (allModuleFiles : list ModuleFile) (tag : string)
    (m : ModuleFile) : Prop :=
  exists l1 l2,
    allModuleFiles = l1 ++ m :: l2 /\ tagOf m = tag /\
    forall x, In x l1 -> tagOf x <> tag.

(** The bundle holds a module of that tag. *)
Definition holdsTag (tag : string) (b : ManifestBundle) : bool :=
  existsb (fun m => String.eqb (tagOf m) tag) (moduleFiles b).

(** The declaration lists the tag. *)
Definition listsTag (tag : string) (d : Bundle) : bool :=
  existsb (String.eqb tag) (componentsOf d).

(** The declaration lists a tag that some module carries. *)
Definition listsCarried (allModuleFiles : list ModuleFile) (d : Bundle)
  : bool := existsb (carried allModuleFiles) (componentsOf d).

(** The tags of a declaration that no module carries. *)
Definition missing (allModuleFiles : list ModuleFile) (tags : list string)
  : list string :=
  filter (fun tag => negb (matches allModuleFiles tag)) tags.

(** The diagnostic left for a missing tag. *)
Definition missingTagDiagnostic (tag : string) : Diagnostic :=
  {| level := LevelError; type := "build"; header := "build error";
     messageText := missingTagMessage tag |}.

Definition isEmpty {A} (l : list A) : bool :=
  match l with
  | [] => true
  | _ :: _ => false
  end.

(** Total comparator on first tag names, for bundles that have one. *)
Definition byFirstTagNameOf (a b : ManifestBundle) : Z :=
  match moduleFiles a, moduleFiles b with
  | m :: _, n :: _ => byTagName m n
  | _, _ => 0%Z
  end.

(** What the validator requires of a bundle it lets through. *)
Definition consistent (b : ManifestBundle) : Prop :=
  moduleFiles b <> [] /\ oneModeAmongStyled (moduleFiles b).

(** The bundles one preliminary bundle turns into. *)
Definition emitted (b : ManifestBundle) : list ManifestBundle :=
  match moduleFiles b with
  | [] => []
  | [_] => [b]
  | ms =>
      let p := findPrimaryEncapsulation ms in
      [setModuleFiles b (filter (inPrimary p) ms)]
        ++ newBundle (filter (toScoped p) ms)
        ++ newBundle (filter (toShadow p) ms)
        ++ newBundle (filter (toPlain p) ms)
  end.

(** The world once the run has announced itself, just before [try]. *)
Definition started (config : BuildConfig) (w : World) : World :=
  snd ((when (generateWWW config)
          (log ("bundle, buildDir: " ++ buildDir config)%string) ;;;
        when (generateDistribution config)
          (log ("bundle, distDir: " ++ distDir config)%string) ;;;
        log "bundle started") w).

(** The world a run ends in when the statements under [try] threw [e]
    and left the world [w']. *)
Definition caught (e : string) (w' : World) : World :=
  {| ctx := setDiagnostics (ctx w') (catchError (diagnostics (ctx w')) e);
     logged := logged w' ++ ["bundle finished"] |}.

(** The diagnostics of all the tags the declarations miss, in order. *)
Definition missingDiagnostics (allModuleFiles : list ModuleFile)
    (bundles : list Bundle) : list Diagnostic :=
  map missingTagDiagnostic
    (flat_map (fun b => missing allModuleFiles (componentsOf b)) bundles).

(* ================================================================== *)
(** ** Sample data *)

Module Sample.

Definition styled : option StylesMeta := Some [].

Definition aBtn : ModuleFile :=
  mkModuleFile (mkComponentMeta "a-btn" (Some ShadowDom) styled).
Definition aCard : ModuleFile :=
  mkModuleFile (mkComponentMeta "a-card" (Some ScopedCss) styled).
Definition aIcon : ModuleFile :=
  mkModuleFile (mkComponentMeta "a-icon" (Some NoEncapsulation) None).

Definition modules : list ModuleFile := [aBtn; aCard; aIcon].

Definition declaration : Bundle :=
  mkBundle (Some ["a-btn"; "a-card"; "a-icon"]).

(** Two declarations that name the same absent component. *)
Definition withMissing1 : Bundle := mkBundle (Some ["missing-cmp"; "a-btn"]).
Definition withMissing2 : Bundle := mkBundle (Some ["missing-cmp"; "a-card"]).

Definition preliminary : ManifestBundle :=
  createManifestBundle [aBtn; aCard; aIcon].

Definition config : BuildConfig :=
  mkBuildConfig true false "www/build" "dist".

Definition context (ds : list Diagnostic) : BuildContext :=
  mkBuildContext ds (mkManifest modules [declaration]) [].

Definition priorError : Diagnostic :=
  mkDiagnostic LevelError "build" "build error" "earlier failure".

(** A plain module whose [encapsulation] is unset, and a styled one
    set to [NoEncapsulation]. *)
Definition unsetCmp : ModuleFile :=
  mkModuleFile (mkComponentMeta "x-unset" None styled).
Definition plainCmp : ModuleFile :=
  mkModuleFile (mkComponentMeta "x-plain" (Some NoEncapsulation) styled).

(** Collaborators: one that does nothing, one that throws. *)
Definition quiet : BuildConfig -> list ManifestBundle -> Build.M unit :=
  fun _ _ => Build.ret tt.
Definition failing : BuildConfig -> list ManifestBundle -> Build.M unit :=
  fun _ _ w => (Throw "style bundling failed", w).

(** A second module under the tag of [aBtn], and a module list where
    it comes after [aBtn]. *)
Definition aBtnLater : ModuleFile :=
  mkModuleFile (mkComponentMeta "a-btn" (Some ScopedCss) styled).
Definition modulesWithDuplicate : list ModuleFile :=
  [aCard; aBtn; aBtnLater; aIcon].

(** Two declarations that both list the button. *)
Definition buttonTwice : list Bundle :=
  [mkBundle (Some ["a-btn"; "a-card"]); mkBundle (Some ["a-icon"; "a-btn"])].

End Sample.

(** The tag name a bundle is ordered by, if it has a module. *)
Definition firstKey (b : ManifestBundle) : string :=
  match moduleFiles b with
  | m :: _ => tagOf m
  | [] => EmptyString
  end.

(** Two bundle objects that differ at most in the order of their
    modules. *)
Definition sameMembers (b b' : ManifestBundle) : Prop :=
  Permutation (moduleFiles b) (moduleFiles b') /\
  compiledModuleText b = compiledModuleText b'.

(** The bundle has no module. *)
Definition isEmptyBundle (b : ManifestBundle) : bool :=
  isEmpty (moduleFiles b).

(** The bundles a context's manifest leads to: resolved, validated,
    each sorted by tag and then sorted among themselves. *)
Definition prepared (c : BuildContext) : list ManifestBundle :=
  sort byFirstTagNameOf
    (map sortModuleFiles
       (validateBundleModules
          (fst (getManifestBundles (modulesFiles (manifest c))
                  (bundles (manifest c)) (diagnostics c))))).

(** The world in which the first collaborator is called. *)
Definition handedOver (w : World) : World :=
  {| ctx :=
       {| diagnostics :=
            snd (getManifestBundles (modulesFiles (manifest (ctx w)))
                   (bundles (manifest (ctx w))) (diagnostics (ctx w)));
          manifest := manifest (ctx w);
          manifestBundles := prepared (ctx w) |};
     logged := logged w |}.

(* ================================================================== *)
(** ** HTML optimisation ([optimizeHtml]) *)

Module Hydrate.

(** The options read by [optimizeHtml]; an option left out is [None]. *)
Record HydrateOptions : Type := mkHydrateOptions {
  canonicalLink : option bool;
  inlineStyles : option bool;
  inlineLoaderScript : option bool;
  inlineAssetsMaxSize : option Z;
  collapseWhitespace : option bool
}.

(** [opt !== false]. *)
Definition notFalse (opt : option bool) : bool :=
  match opt with
  | Some false => false
  | _ => true
  end.

(** [opt > 0], false when the option is left out. *)
Definition positive (opt : option Z) : bool :=
  match opt with
  | Some n => (0 <? n)%Z
  | None => false
  end.

Section Steps.

(** The document is only handed on to the collaborators. *)
Variable Document : Type.

(** What a run works on: the document, the build context and
    [results.diagnostics]. *)
Record State : Type := mkState {
  doc : Document;
  buildCtx : BuildContext;
  results : list Diagnostic
}.

(** A step updates the state and returns or throws. *)
Definition Step : Type := State -> Exn unit * State.

Definition skip : Step := fun s => (Return tt, s).

Definition andThen (a b : Step) : Step :=
  fun s =>
    match a s with
    | (Return _, s') => b s'
    | (Throw e, s') => (Throw e, s')
    end.

(** [results.diagnostics.push({level: 'error', type: 'hydrate',
    header, messageText: e})]. *)
Definition pushHydrateError (header : string) (e : string) : Step :=
  fun s =>
    (Return tt,
     {| doc := doc s; buildCtx := buildCtx s;
        results := results s ++
          [{| level := LevelError; type := "hydrate"; header := header;
              messageText := e |}] |}).

(** [try { step } catch (e) { push the diagnostic }]. *)
Definition attempt (header : string) (step : Step) : Step :=
  fun s =>
    match step s with
    | (Return _, s') => (Return tt, s')
    | (Throw e, s') => pushHydrateError header e s'
    end.

Definition onlyIf (b : bool) (step : Step) : Step :=
  if b then step else skip.

(** [doc.documentElement.setAttribute('data-ssr', '')], a call into the
    document, and the five collaborators imported from other files. *)
Variable setHtmlDataSsrAttr : Step.
Variable insertCanonicalLink : Step.
Variable inlineComponentStyles : Step.
Variable inlineLoaderScriptStep : Step.
Variable inlineExternalAssets : Step.
Variable collapseHtmlWhitepace : Step.

Definition optimizeHtml (devMode : bool) (opts : HydrateOptions) : Step :=
  andThen setHtmlDataSsrAttr
  (andThen (onlyIf (notFalse (canonicalLink opts))
              (attempt "Insert Canonical Link" insertCanonicalLink))
  (andThen (onlyIf (notFalse (inlineStyles opts))
              (attempt "Inline Component Styles" inlineComponentStyles))
  (andThen (onlyIf (notFalse (inlineLoaderScript opts))
              (attempt "Inline Loader Script" inlineLoaderScriptStep))
  (andThen (onlyIf (positive (inlineAssetsMaxSize opts))
              (attempt "Inline External Styles" inlineExternalAssets))
           (onlyIf (notFalse (collapseWhitespace opts) && negb devMode)
              (attempt "Reduce HTML Whitespace" collapseHtmlWhitepace)))))).

End Steps.

Arguments doc {Document} s.
Arguments buildCtx {Document} s.
Arguments results {Document} s.
Arguments mkState {Document} doc buildCtx results.

(** The headers of the steps the options let through, in the order in
    which the steps are taken. *)
Definition enabledHeaders (devMode : bool) (opts : HydrateOptions)
  : list string :=
  (if notFalse (canonicalLink opts) then ["Insert Canonical Link"] else []) ++
  (if notFalse (inlineStyles opts) then ["Inline Component Styles"] else []) ++
  (if notFalse (inlineLoaderScript opts) then ["Inline Loader Script"] else []) ++
  (if positive (inlineAssetsMaxSize opts) then ["Inline External Styles"] else []) ++
  (if notFalse (collapseWhitespace opts) && negb devMode
   then ["Reduce HTML Whitespace"] else []).

(** A collaborator that throws [e] at once. *)
Definition failsWith {Document} (e : string) : Step Document :=
  fun s => (Throw e, s).

Definition hydrateError (header e : string) : Diagnostic :=
  {| level := LevelError; type := "hydrate"; header := header;
     messageText := e |}.

End Hydrate.

(* ================================================================== *)
(** ** Application file names ([app-file-naming]) *)

Module FileNaming.

(** The fields of the build configuration the naming functions read. *)
Record NamingConfig : Type := mkNamingConfig {
  fsNamespace : string;
  buildDir : string;
  distDir : string;
  publicPath : string;
  hashFileNames : bool;
  hashedFileNameLength : Z
}.

Section Names.

(** [pathJoin] of [compiler/util], the constant [GLOBAL_NAME] of
    [util/constants] and [config.sys.generateContentHash] are not part
    of the sources: the functions below are given them. *)
Variable pathJoin : NamingConfig -> list string -> string.
Variable GLOBAL_NAME : string.
Variable generateContentHash : string -> Z -> string.

Definition getAppWWWBuildDir (config : NamingConfig) : string :=
  pathJoin config [buildDir config; fsNamespace config].

Definition getAppDistDir (config : NamingConfig) : string :=
  pathJoin config [distDir config; fsNamespace config].

Definition getRegistryJsonWWW (config : NamingConfig) : string :=
  pathJoin config
    [getAppWWWBuildDir config; (fsNamespace config ++ ".registry.json")%string].

Definition getRegistryJsonDist (config : NamingConfig) : string :=
  pathJoin config
    [distDir config; (fsNamespace config ++ ".registry.json")%string].

Definition getLoaderFileName (config : NamingConfig) : string :=
  (fsNamespace config ++ ".js")%string.

Definition getLoaderWWW (config : NamingConfig) : string :=
  pathJoin config [buildDir config; getLoaderFileName config].

Definition getLoaderDist (config : NamingConfig) : string :=
  pathJoin config [distDir config; getLoaderFileName config].

Definition getGlobalFileName (config : NamingConfig) : string :=
  (fsNamespace config ++ "." ++ GLOBAL_NAME ++ ".js")%string.

Definition getGlobalWWW (config : NamingConfig) : string :=
  pathJoin config [getAppWWWBuildDir config; getGlobalFileName config].

Definition getGlobalDist (config : NamingConfig) : string :=
  pathJoin config [getAppDistDir config; getGlobalFileName config].

Definition getCoreFilename (config : NamingConfig) (coreId jsContent : string)
  : string :=
  if hashFileNames config then
    let contentHash :=
      generateContentHash jsContent (hashedFileNameLength config) in
    (fsNamespace config ++ "." ++ contentHash ++ ".js")%string
  else (fsNamespace config ++ "." ++ coreId ++ ".js")%string.

Definition getGlobalStyleFilename (config : NamingConfig) : string :=
  (fsNamespace config ++ ".css")%string.

Definition getBundleFilename (bundleId : string) : string :=
  (bundleId ++ ".js")%string.

Definition getAppPublicPath (config : NamingConfig) : string :=
  (pathJoin config [publicPath config; fsNamespace config] ++ "/")%string.

End Names.

End FileNaming.

(* ================================================================== *)
(** * Properties *)

(** ** The sort *)

Module JsFacts.

Section Total.
Context {A : Type}.
Variable c : A -> A -> Z.

Lemma insert_Permutation x l : Permutation (insert c x l) (x :: l).
Proof.
  induction l as [|y l IH]; simpl.
  - apply Permutation_refl.
  - destruct (c x y <=? 0)%Z.
    + apply Permutation_refl.
    + eapply Permutation_trans; [apply perm_skip, IH | apply perm_swap].
Qed.

Lemma sort_Permutation l : Permutation (sort c l) l.
Proof.
  induction l as [|x l IH]; simpl.
  - constructor.
  - eapply Permutation_trans; [apply insert_Permutation|].
    now apply perm_skip.
Qed.

Lemma sort_length l : List.length (sort c l) = List.length l.
Proof. apply Permutation_length, sort_Permutation. Qed.

Lemma sort_In x l : In x (sort c l) <-> In x l.
Proof.
  split; apply Permutation_in;
    [apply sort_Permutation | apply Permutation_sym, sort_Permutation].
Qed.

(** A list already in order is left as it is. *)
Lemma sort_fixed l : Sorted (keeps c) l -> sort c l = l.
Proof.
  induction 1 as [|x l Hs IH Hhd]; simpl; [reflexivity|].
  rewrite IH. destruct Hhd as [|y l Hxy]; simpl; [reflexivity|].
  unfold keeps in Hxy. apply Z.leb_le in Hxy. now rewrite Hxy.
Qed.

(** When the comparator's two verdicts on a pair never contradict
    each other, the result is in order. *)
Hypothesis flip : forall a b, (0 < c a b)%Z -> (c b a <= 0)%Z.

Lemma insert_HdRel z x l :
  (keeps c) z x -> HdRel (keeps c) z l -> HdRel (keeps c) z (insert c x l).
Proof.
  intros Hzx Hzl. destruct l as [|y l]; simpl.
  - now constructor.
  - destruct (c x y <=? 0)%Z; constructor; trivial.
    now inversion Hzl.
Qed.

Lemma insert_Sorted x l : Sorted (keeps c) l -> Sorted (keeps c) (insert c x l).
Proof.
  induction 1 as [|y l Hs IH Hhd]; simpl.
  - repeat constructor.
  - destruct (c x y <=? 0)%Z eqn:E.
    + constructor; [now constructor|]. constructor. now apply Z.leb_le.
    + constructor; [exact IH|]. apply insert_HdRel; trivial.
      apply flip. apply Z.leb_gt in E. lia.
Qed.

Lemma sort_Sorted l : Sorted (keeps c) (sort c l).
Proof.
  induction l; simpl; [constructor | now apply insert_Sorted].
Qed.

Lemma sort_idempotent l : sort c (sort c l) = sort c l.
Proof. apply sort_fixed, sort_Sorted. Qed.
End Total.

Section Throwing.
Context {A : Type}.
Variable cM : A -> A -> Exn Z.

Lemma sortM_fixed l : Sorted (keepsM cM) l -> sortM cM l = Return l.
Proof.
  induction 1 as [|x l Hs IH Hhd]; simpl; [reflexivity|].
  rewrite IH. simpl. destruct Hhd as [|y l (z & Hz & Hle)]; simpl;
    [reflexivity|].
  rewrite Hz. simpl. apply Z.leb_le in Hle. now rewrite Hle.
Qed.

Lemma insertM_Permutation x l r :
  insertM cM x l = Return r -> Permutation r (x :: l).
Proof.
  revert r. induction l as [|y l IH]; simpl; intros r H.
  - inversion H. apply Permutation_refl.
  - destruct (cM x y) as [z|e]; simpl in H; [|discriminate].
    destruct (z <=? 0)%Z.
    + inversion H. apply Permutation_refl.
    + destruct (insertM cM x l) as [r'|e]; simpl in H; [|discriminate].
      inversion H. subst r.
      eapply Permutation_trans; [apply perm_skip, IH; reflexivity|].
      apply perm_swap.
Qed.

Lemma sortM_Permutation l r :
  sortM cM l = Return r -> Permutation r l.
Proof.
  revert r. induction l as [|x l IH]; simpl; intros r H.
  - inversion H. constructor.
  - destruct (sortM cM l) as [s|e]; simpl in H; [|discriminate].
    eapply Permutation_trans; [eapply insertM_Permutation; eassumption|].
    apply perm_skip. now apply IH.
Qed.

Hypothesis flipM :
  forall a b z, cM a b = Return z -> (0 < z)%Z -> (keepsM cM) b a.

Lemma insertM_HdRel z x l r :
  (keepsM cM) z x -> HdRel (keepsM cM) z l -> insertM cM x l = Return r ->
  HdRel (keepsM cM) z r.
Proof.
  intros Hzx Hzl H. destruct l as [|y l]; simpl in H.
  - inversion H. now constructor.
  - destruct (cM x y) as [v|e]; simpl in H; [|discriminate].
    destruct (v <=? 0)%Z.
    + inversion H. now constructor.
    + destruct (insertM cM x l) as [r'|e]; simpl in H; [|discriminate].
      inversion H. constructor. now inversion Hzl.
Qed.

Lemma insertM_Sorted x l r :
  Sorted (keepsM cM) l -> insertM cM x l = Return r -> Sorted (keepsM cM) r.
Proof.
  intros Hs. revert r.
  induction Hs as [|y l Hs IH Hhd]; simpl; intros r H.
  - inversion H. repeat constructor.
  - destruct (cM x y) as [v|e] eqn:Ev; simpl in H; [|discriminate].
    destruct (v <=? 0)%Z eqn:E.
    + inversion H. constructor; [now constructor|]. constructor.
      exists v. split; trivial. now apply Z.leb_le.
    + destruct (insertM cM x l) as [r'|e] eqn:Er; simpl in H;
        [|discriminate].
      inversion H. subst r. constructor; [now apply IH|].
      eapply insertM_HdRel; [| exact Hhd | exact Er].
      eapply flipM; [exact Ev|]. apply Z.leb_gt in E. lia.
Qed.

Lemma sortM_Sorted l r : sortM cM l = Return r -> Sorted (keepsM cM) r.
Proof.
  revert r. induction l as [|x l IH]; simpl; intros r H.
  - inversion H. constructor.
  - destruct (sortM cM l) as [s|e]; simpl in H; [|discriminate].
    eapply insertM_Sorted; [apply IH; reflexivity | exact H].
Qed.

(** Where the comparator does not throw it is the total sort. *)
Variable c : A -> A -> Z.

Lemma insertM_total x l :
  (forall y, In y l -> cM x y = Return (c x y)) ->
  insertM cM x l = Return (insert c x l).
Proof.
  induction l as [|y l IH]; simpl; intros H; [reflexivity|].
  rewrite (H y (or_introl eq_refl)). simpl.
  destruct (c x y <=? 0)%Z; [reflexivity|].
  rewrite IH; [reflexivity|]. intros; apply H; now right.
Qed.

Lemma sortM_total l :
  (forall x y, In x l -> In y l -> cM x y = Return (c x y)) ->
  sortM cM l = Return (sort c l).
Proof.
  induction l as [|x l IH]; simpl; intros H; [reflexivity|].
  rewrite IH by (intros; apply H; now right). simpl.
  apply insertM_total. intros y Hy. apply H; [now left|].
  right. exact (proj1 (sort_In c y l) Hy).
Qed.
End Throwing.

End JsFacts.

Import JsFacts.

(* ================================================================== *)
(** ** Encapsulation classifier *)

Section ClassifierFacts.

Lemma enc_eqb_eq a b : enc_eqb a b = true <-> a = b.
Proof.
  destruct a as [[]|], b as [[]|]; simpl; split; congruence.
Qed.

Lemma isScopedCss_mode m :
  isScopedCss m = mode_eqb (modeOf (encOf m)) ModeScoped.
Proof. unfold isScopedCss. now destruct (encOf m) as [[]|]. Qed.

Lemma isShadowDom_mode m :
  isShadowDom m = mode_eqb (modeOf (encOf m)) ModeShadow.
Proof. unfold isShadowDom. now destruct (encOf m) as [[]|]. Qed.

Lemma isPlainCss_mode m :
  isPlainCss m = mode_eqb (modeOf (encOf m)) ModeNone.
Proof.
  unfold isPlainCss, isScopedCss, isShadowDom.
  now destruct (encOf m) as [[]|].
Qed.

Lemma mode_eqb_eq a b : mode_eqb a b = true <-> a = b.
Proof. destruct a, b; simpl; split; congruence. Qed.

Lemma votes_plain l : votes ModeNone l = List.length (filter isPlainCss l).
Proof.
  unfold votes. f_equal. apply filter_ext. intros; now rewrite isPlainCss_mode.
Qed.

Lemma votes_scoped l :
  votes ModeScoped l = List.length (filter isScopedCss l).
Proof.
  unfold votes. f_equal. apply filter_ext. intros; now rewrite isScopedCss_mode.
Qed.

Lemma votes_shadow l :
  votes ModeShadow l = List.length (filter isShadowDom l).
Proof.
  unfold votes. f_equal. apply filter_ext. intros; now rewrite isShadowDom_mode.
Qed.

(** Every module votes once. *)
Lemma votes_total l :
  votes ModeNone l + votes ModeScoped l + votes ModeShadow l = List.length l.
Proof.
  unfold votes. induction l as [|m l IH]; simpl; [reflexivity|].
  destruct (modeOf (encOf m)); simpl; lia.
Qed.

Lemma filter_first {A} (f : A -> bool) l x r :
  filter f l = x :: r -> In x l /\ f x = true.
Proof.
  intros H. apply filter_In. rewrite H. now left.
Qed.

(** The outcome of the sort, bucket sizes compared in the fixed
    evaluation order plain, scoped, shadow. *)
Lemma findPrimaryEncapsulation_table l :
  findPrimaryEncapsulation l =
    let p := filter isPlainCss l in
    let s := filter isScopedCss l in
    let h := filter isShadowDom l in
    if (List.length s <=? List.length p)%nat
       && (List.length h <=? List.length p)%nat
    then firstEnc p
    else if (List.length h <=? List.length s)%nat then firstEnc s
    else firstEnc h.
Proof.
  unfold findPrimaryEncapsulation, firstEnc. cbv zeta.
  generalize (filter isPlainCss l), (filter isScopedCss l),
    (filter isShadowDom l).
  intros p s h. cbn [sort]. unfold bySizeDesc.
  repeat (cbn [insert];
    match goal with
    | |- context [(?a <? ?b)%nat] => destruct (Nat.ltb_spec a b)
    end; cbn [Z.leb Z.compare]).
  all: cbn [insert].
  all: destruct (Nat.leb_spec (List.length s) (List.length p));
    destruct (Nat.leb_spec (List.length h) (List.length p));
    destruct (Nat.leb_spec (List.length h) (List.length s));
    simpl; try reflexivity; try lia.
Qed.

End ClassifierFacts.

Lemma findPrimaryEncapsulation_elects m l :
  exists m0, In m0 (m :: l) /\
    findPrimaryEncapsulation (m :: l) = Some (encOf m0) /\
    0 < votes (modeOf (encOf m0)) (m :: l) /\
    (forall w, votes w (m :: l) <= votes (modeOf (encOf m0)) (m :: l)) /\
    (forall w, votes w (m :: l) = votes (modeOf (encOf m0)) (m :: l) ->
               preference (modeOf (encOf m0)) <= preference w).
Proof.
  set (ms := m :: l).
  assert (Hlen : 0 < List.length ms) by (simpl; lia).
  pose proof (votes_total ms) as Htot.
  rewrite findPrimaryEncapsulation_table. cbv zeta.
  pose proof (votes_plain ms) as Hp.
  pose proof (votes_scoped ms) as Hs.
  pose proof (votes_shadow ms) as Hh.
  destruct (Nat.leb_spec (List.length (filter isScopedCss ms))
              (List.length (filter isPlainCss ms))) as [H1|H1];
    [destruct (Nat.leb_spec (List.length (filter isShadowDom ms))
                 (List.length (filter isPlainCss ms))) as [H2|H2]|];
    simpl andb; cbv iota.
  - (* plain wins *)
    destruct (filter isPlainCss ms) as [|m0 r] eqn:E; [simpl in *; lia|].
    apply filter_first in E as E'. destruct E' as [Hin Hm0].
    rewrite isPlainCss_mode in Hm0. apply mode_eqb_eq in Hm0.
    exists m0. simpl firstEnc. rewrite Hm0.
    split; [exact Hin|]. repeat split; try lia.
    + intros []; lia.
    + intros [] _; simpl; lia.
  - (* plain loses to shadow *)
    destruct (Nat.leb_spec (List.length (filter isShadowDom ms))
                (List.length (filter isScopedCss ms))) as [H3|H3]; [lia|].
    destruct (filter isShadowDom ms) as [|m0 r] eqn:E; [simpl in *; lia|].
    apply filter_first in E as E'. destruct E' as [Hin Hm0].
    rewrite isShadowDom_mode in Hm0. apply mode_eqb_eq in Hm0.
    exists m0. simpl firstEnc. rewrite Hm0.
    split; [exact Hin|]. repeat split; try lia.
    + intros []; lia.
    + intros [] Hw; simpl; lia.
  - (* plain loses to scoped *)
    destruct (Nat.leb_spec (List.length (filter isShadowDom ms))
                (List.length (filter isScopedCss ms))) as [H3|H3].
    + destruct (filter isScopedCss ms) as [|m0 r] eqn:E; [simpl in *; lia|].
      apply filter_first in E as E'. destruct E' as [Hin Hm0].
      rewrite isScopedCss_mode in Hm0. apply mode_eqb_eq in Hm0.
      exists m0. simpl firstEnc. rewrite Hm0.
      split; [exact Hin|]. repeat split; try lia.
      * intros []; lia.
      * intros [] Hw; simpl; lia.
    + destruct (filter isShadowDom ms) as [|m0 r] eqn:E; [simpl in *; lia|].
      apply filter_first in E as E'. destruct E' as [Hin Hm0].
      rewrite isShadowDom_mode in Hm0. apply mode_eqb_eq in Hm0.
      exists m0. simpl firstEnc. rewrite Hm0.
      split; [exact Hin|]. repeat split; try lia.
      * intros []; lia.
      * intros [] Hw; simpl; lia.
Qed.

(** C3. On a non-empty list [findPrimaryEncapsulation] returns the
    [encapsulation] of one of the modules, and the mode of that value
    is that of the largest of the three buckets (none-or-unset, scoped,
    shadow): the bucket is not empty, no bucket is larger, and a bucket
    of the same size is never preferred to it in the order none,
    scoped, shadow. On the empty list it returns [null]. *)
Theorem findPrimaryEncapsulation_majority :
  findPrimaryEncapsulation [] = None /\
  forall m l, exists e,
    findPrimaryEncapsulation (m :: l) = Some e /\
    (exists m0, In m0 (m :: l) /\ encOf m0 = e) /\
    0 < votes (modeOf e) (m :: l) /\
    (forall w, votes w (m :: l) <= votes (modeOf e) (m :: l)) /\
    (forall w, votes w (m :: l) = votes (modeOf e) (m :: l) ->
               preference (modeOf e) <= preference w).
Proof.
  split; [reflexivity|]. intros m l.
  destruct (findPrimaryEncapsulation_elects m l) as (m0 & Hin & Hp & H).
  exists (encOf m0). split; [exact Hp|]. split; [|exact H].
  now exists m0.
Qed.

(* ================================================================== *)
(** ** Bundle validator *)

Section ValidatorFacts.

Variable p : option (option ENCAPSULATION).

(** The loop fills each array with the modules passing its test, in
    the order of the bundle. *)
Lemma classify_fold l g :
  fold_left (classify p) l g =
    {| primaryCss := primaryCss g ++ filter (inPrimary p) l;
       scopedCss := scopedCss g ++ filter (toScoped p) l;
       shadowCss := shadowCss g ++ filter (toShadow p) l;
       plainCss := plainCss g ++ filter (toPlain p) l |}.
Proof.
  revert g. induction l as [|m l IH]; intros g; simpl.
  - rewrite !app_nil_r. now destruct g.
  - rewrite IH. unfold classify, toScoped, toShadow, toPlain.
    destruct (inPrimary p m); [|destruct (isScopedCss m);
                                  [|destruct (isShadowDom m)]];
      simpl; rewrite <- ?app_assoc; reflexivity.
Qed.

(** The four groups share out the bundle. *)
Lemma groups_Permutation l :
  Permutation
    (filter (inPrimary p) l ++ filter (toScoped p) l
       ++ filter (toShadow p) l ++ filter (toPlain p) l) l.
Proof.
  induction l as [|m l IH]; simpl; [constructor|].
  unfold toScoped, toShadow, toPlain.
  destruct (inPrimary p m); simpl.
  - now constructor.
  - destruct (isScopedCss m); simpl.
    + apply Permutation_sym, Permutation_cons_app, Permutation_sym, IH.
    + destruct (isShadowDom m); simpl.
      * rewrite app_assoc.
        apply Permutation_sym, Permutation_cons_app, Permutation_sym.
        rewrite <- app_assoc. exact IH.
      * rewrite 2!app_assoc.
        apply Permutation_sym, Permutation_cons_app, Permutation_sym.
        rewrite <- 2!app_assoc. exact IH.
Qed.

Lemma toScoped_mode m : toScoped p m = true -> encOf m = Some ScopedCss.
Proof.
  unfold toScoped, isScopedCss. intros H.
  apply andb_prop in H as [_ H]. now apply enc_eqb_eq.
Qed.

Lemma toShadow_mode m : toShadow p m = true -> encOf m = Some ShadowDom.
Proof.
  unfold toShadow, isShadowDom. intros H.
  apply andb_prop in H as [_ H]. now apply enc_eqb_eq.
Qed.

Lemma toPlain_mode m : toPlain p m = true -> modeOf (encOf m) = ModeNone.
Proof.
  unfold toPlain. intros H.
  apply andb_prop in H as [H H3]. apply andb_prop in H as [_ H2].
  apply mode_eqb_eq. rewrite <- isPlainCss_mode. unfold isPlainCss.
  now rewrite H2, H3.
Qed.

Lemma toScoped_styled m : toScoped p m = true -> hasStyles m = true.
Proof.
  unfold toScoped, inPrimary. destruct (hasStyles m); trivial.
  now rewrite orb_true_r.
Qed.

Lemma inPrimary_styled m :
  inPrimary p m = true -> hasStyles m = true -> p = Some (encOf m).
Proof.
  unfold inPrimary, enc_eqb_nullable. intros H Hs. rewrite Hs in H.
  rewrite orb_false_r in H. destruct p as [e|]; [|discriminate].
  apply enc_eqb_eq in H. now subst.
Qed.

Lemma primary_oneMode l : oneModeAmongStyled (filter (inPrimary p) l).
Proof.
  intros m1 m2 H1 H2 S1 S2.
  apply filter_In in H1 as [_ H1]. apply filter_In in H2 as [_ H2].
  apply inPrimary_styled in H1; trivial.
  apply inPrimary_styled in H2; trivial. congruence.
Qed.

Lemma scoped_oneMode l : oneModeAmongStyled (filter (toScoped p) l).
Proof.
  intros m1 m2 H1 H2 _ _.
  apply filter_In in H1 as [_ H1]. apply filter_In in H2 as [_ H2].
  apply toScoped_mode in H1, H2. congruence.
Qed.

Lemma shadow_oneMode l : oneModeAmongStyled (filter (toShadow p) l).
Proof.
  intros m1 m2 H1 H2 _ _.
  apply filter_In in H1 as [_ H1]. apply filter_In in H2 as [_ H2].
  apply toShadow_mode in H1, H2. congruence.
Qed.

Lemma plain_oneMode l : oneModeAmongStyled (filter (toPlain p) l).
Proof.
  intros m1 m2 H1 H2 _ _.
  apply filter_In in H1 as [_ H1]. apply filter_In in H2 as [_ H2].
  apply toPlain_mode in H1, H2. congruence.
Qed.

End ValidatorFacts.

Lemma pushIfAny_newBundle out l :
  pushIfAny out l (createManifestBundle l) = out ++ newBundle l.
Proof. destruct l; simpl; [now rewrite app_nil_r | reflexivity]. Qed.

Lemma pushIfAny_inhabited out l b : l <> [] -> pushIfAny out l b = out ++ [b].
Proof. destruct l; [congruence | reflexivity]. Qed.

(** The module the classifier read the primary value from lands in the
    primary group, which is therefore never empty. *)
Lemma primary_group_inhabited m l :
  filter (inPrimary (findPrimaryEncapsulation (m :: l))) (m :: l) <> [].
Proof.
  destruct (findPrimaryEncapsulation_elects m l) as (m0 & Hin & Hp & _).
  rewrite Hp. intros E.
  assert (H : In m0 (filter (inPrimary (Some (encOf m0))) (m :: l))).
  { apply filter_In. split; trivial. unfold inPrimary, enc_eqb_nullable.
    apply orb_true_iff. left. now apply enc_eqb_eq. }
  rewrite E in H. exact H.
Qed.

(** The validator only appends, and what it appends for a bundle is
    [emitted]. *)
Lemma validateManifestBundle_emitted acc b :
  validateManifestBundle acc b = acc ++ emitted b.
Proof.
  unfold validateManifestBundle, emitted.
  destruct (moduleFiles b) as [|m1 [|m2 l]] eqn:E.
  - now rewrite app_nil_r.
  - reflexivity.
  - cbv zeta. rewrite classify_fold. cbn [primaryCss scopedCss shadowCss
      plainCss noGroups app].
    rewrite !pushIfAny_newBundle.
    rewrite (pushIfAny_inhabited _ _ _ (primary_group_inhabited m1 (m2 :: l))).
    rewrite <- !app_assoc. reflexivity.
Qed.

Lemma fold_left_append {A B} (f : list B -> A -> list B) (g : A -> list B) :
  (forall acc a, f acc a = acc ++ g a) ->
  forall l acc, fold_left f l acc = acc ++ flat_map g l.
Proof.
  intros H. induction l as [|a l IH]; intros acc; simpl.
  - now rewrite app_nil_r.
  - rewrite IH, H, <- app_assoc. reflexivity.
Qed.

Lemma validateBundleModules_emitted bs :
  validateBundleModules bs = flat_map emitted bs.
Proof.
  unfold validateBundleModules.
  now rewrite (fold_left_append _ emitted validateManifestBundle_emitted).
Qed.

Lemma newBundle_consistent l :
  oneModeAmongStyled l -> Forall consistent (newBundle l).
Proof.
  intros H. destruct l as [|x r]; simpl; constructor; [|constructor].
  split; [discriminate | exact H].
Qed.

Lemma emitted_consistent b : Forall consistent (emitted b).
Proof.
  unfold emitted. destruct (moduleFiles b) as [|m1 [|m2 l]] eqn:E.
  - constructor.
  - constructor; [|constructor]. unfold consistent. rewrite E.
    split; [discriminate|].
    intros x y [<-|[]] [<-|[]] _ _. reflexivity.
  - cbv zeta. constructor.
    + unfold consistent. cbn [setModuleFiles moduleFiles].
      split; [apply primary_group_inhabited | apply primary_oneMode].
    + repeat (apply Forall_app; split); apply newBundle_consistent.
      * apply scoped_oneMode.
      * apply shadow_oneMode.
      * apply plain_oneMode.
Qed.

Lemma allModules_newBundle l : allModules (newBundle l) = l.
Proof. destruct l; simpl; [reflexivity | now rewrite app_nil_r]. Qed.

Lemma allModules_app a b : allModules (a ++ b) = allModules a ++ allModules b.
Proof. apply flat_map_app. Qed.

Lemma emitted_Permutation b : Permutation (allModules (emitted b)) (moduleFiles b).
Proof.
  unfold emitted. destruct (moduleFiles b) as [|m1 [|m2 l]] eqn:E.
  - constructor.
  - simpl. rewrite E. apply Permutation_refl.
  - cbv zeta. rewrite !allModules_app, !allModules_newBundle.
    cbn [allModules flat_map setModuleFiles moduleFiles]. rewrite app_nil_r.
    apply groups_Permutation.
Qed.

Lemma totalModules_length bs : totalModules bs = List.length (allModules bs).
Proof.
  unfold totalModules, allModules. induction bs as [|b bs IH]; simpl.
  - reflexivity.
  - now rewrite length_app, IH.
Qed.

Lemma modeOf_classified_inj e1 e2 :
  modeOf (Some e1) = modeOf (Some e2) -> e1 = e2.
Proof. destruct e1, e2; simpl; congruence. Qed.

Lemma validated_consistent bs : Forall consistent (validateBundleModules bs).
Proof.
  rewrite validateBundleModules_emitted.
  induction bs as [|b bs IH]; simpl; [constructor|].
  apply Forall_app. split; [apply emitted_consistent | exact IH].
Qed.

Lemma validated_Permutation bs :
  Permutation (allModules (validateBundleModules bs)) (allModules bs).
Proof.
  rewrite validateBundleModules_emitted.
  induction bs as [|b bs IH]; simpl; [constructor|].
  rewrite allModules_app. apply Permutation_app; [|exact IH].
  apply emitted_Permutation.
Qed.

(** C1. Every bundle the validator emits is non-empty, and any two of
    its modules that declare styles have the same encapsulation mode
    (an unset [encapsulation] counting as none, as in the classifier);
    when both have their [encapsulation] set, the two values are
    equal. This holds of what one call of [validateManifestBundle]
    appends and of the whole output of [validateBundleModules]. *)
Theorem validator_emits_consistent_bundles :
  (forall acc b, exists new,
      validateManifestBundle acc b = acc ++ new /\ Forall consistent new) /\
  (forall bs, Forall (fun b => moduleFiles b <> [] /\
                               oneModeAmongStyled (moduleFiles b))
                (validateBundleModules bs)) /\
  (forall bs b m1 m2 e1 e2,
      In b (validateBundleModules bs) ->
      In m1 (moduleFiles b) -> In m2 (moduleFiles b) ->
      hasStyles m1 = true -> hasStyles m2 = true ->
      encOf m1 = Some e1 -> encOf m2 = Some e2 -> e1 = e2).
Proof.
  split; [|split].
  - intros acc b. exists (emitted b). split.
    + apply validateManifestBundle_emitted.
    + apply emitted_consistent.
  - intros bs. apply validated_consistent.
  - intros bs b m1 m2 e1 e2 Hb H1 H2 S1 S2 E1 E2.
    pose proof (validated_consistent bs) as Hall.
    rewrite Forall_forall in Hall. destruct (Hall b Hb) as [_ Hone].
    specialize (Hone m1 m2 H1 H2 S1 S2). rewrite E1, E2 in Hone.
    now apply modeOf_classified_inj.
Qed.

(** C2. The bundles emitted by the validator hold, all together,
    exactly the modules of the bundles it was given: the same number of
    modules, and the same modules up to order, none dropped and none
    duplicated. *)
Theorem validateBundleModules_conserves_modules bs :
  totalModules (validateBundleModules bs) = totalModules bs /\
  Permutation (allModules (validateBundleModules bs)) (allModules bs).
Proof.
  split; [|apply validated_Permutation].
  rewrite !totalModules_length.
  apply Permutation_length, validated_Permutation.
Qed.

(** C4. A bundle without modules adds nothing to the output; a bundle
    of one module is appended as it is; otherwise the primary group
    (the modules whose [encapsulation] is the primary value, and the
    modules without styles) is appended first as the original bundle
    with its module list replaced: its [moduleFiles] are the primary
    group and its [compiledModuleText] is the original's. It is
    followed by a new bundle, of empty [compiledModuleText], for each
    non-empty overflow group, scoped, then shadow, then plain. The
    primary group is never empty, a module without styles is in no
    overflow group, the overflow groups hold exactly the scoped, the
    shadow and the plain modules left out of the primary group, and in
    a bundle whose modules all have their [encapsulation] set every
    module of the primary mode is in the primary group. *)
Theorem validateManifestBundle_groups acc b :
  let ms := moduleFiles b in
  let p := findPrimaryEncapsulation ms in
  let fresh := fun l : list ModuleFile =>
    match l with
    | [] => []
    | _ :: _ => [{| moduleFiles := l; compiledModuleText := EmptyString |}]
    end in
  validateManifestBundle acc b =
    match ms with
    | [] => acc
    | [_] => acc ++ [b]
    | _ :: _ :: _ =>
        acc ++ [{| moduleFiles := filter (inPrimary p) ms;
                   compiledModuleText := compiledModuleText b |}]
            ++ fresh (filter (toScoped p) ms)
            ++ fresh (filter (toShadow p) ms)
            ++ fresh (filter (toPlain p) ms)
    end
  /\ (ms <> [] -> filter (inPrimary p) ms <> [])
  /\ (forall m, inPrimary p m = true <->
                Some (encOf m) = p \/ hasStyles m = false)
  /\ (forall m, hasStyles m = false ->
                toScoped p m = false /\ toShadow p m = false
                /\ toPlain p m = false)
  /\ (forall m, toScoped p m = true <->
                inPrimary p m = false /\ encOf m = Some ScopedCss)
  /\ (forall m, toShadow p m = true <->
                inPrimary p m = false /\ encOf m = Some ShadowDom)
  /\ (forall m, toPlain p m = true <->
                inPrimary p m = false /\ modeOf (encOf m) = ModeNone)
  /\ (classified ms ->
      forall e m, p = Some e -> In m ms ->
                  modeOf (encOf m) = modeOf e -> inPrimary p m = true).
Proof.
  intros ms p fresh.
  split; [|split; [|split; [|split; [|split; [|split; [|split]]]]]].
  - rewrite validateManifestBundle_emitted. unfold emitted. fold ms. fold p.
    destruct ms as [|m1 [|m2 l]]; [now rewrite app_nil_r | reflexivity |].
    unfold setModuleFiles, newBundle, createManifestBundle, fresh.
    reflexivity.
  - subst p. destruct ms as [|m l]; [congruence|]. intros _.
    apply primary_group_inhabited.
  - intros m. split.
    + unfold inPrimary, enc_eqb_nullable. intros H.
      apply orb_true_iff in H as [H|H].
      * left. destruct p as [e|]; [|discriminate].
        apply enc_eqb_eq in H. now subst.
      * right. now apply negb_true_iff.
    + unfold inPrimary, enc_eqb_nullable. intros [H|H]; apply orb_true_iff.
      * left. rewrite <- H. now apply enc_eqb_eq.
      * right. now apply negb_true_iff.
  - intros m H. unfold toScoped, toShadow, toPlain, inPrimary. rewrite H.
    now rewrite orb_true_r.
  - intros m. split.
    + intros H. split; [|revert H; apply toScoped_mode].
      unfold toScoped in H. apply andb_prop in H as [H _].
      now apply negb_true_iff.
    + intros [H1 H2]. unfold toScoped, isScopedCss. rewrite H1, H2.
      reflexivity.
  - intros m. split.
    + intros H. split; [|revert H; apply toShadow_mode].
      unfold toShadow in H. apply andb_prop in H as [H _].
      apply andb_prop in H as [H _]. now apply negb_true_iff.
    + intros [H1 H2]. unfold toShadow, isScopedCss, isShadowDom.
      rewrite H1, H2. reflexivity.
  - intros m. split.
    + intros H. split; [|revert H; apply toPlain_mode].
      unfold toPlain in H. apply andb_prop in H as [H _].
      apply andb_prop in H as [H _]. now apply negb_true_iff.
    + intros [H1 H2]. unfold toPlain, isScopedCss, isShadowDom.
      rewrite H1. destruct (encOf m) as [[| |]|]; try discriminate;
        reflexivity.
  - intros Hcl e m Hp Hin Hmode.
    destruct ms as [|m1 l] eqn:E; [contradiction|].
    destruct (findPrimaryEncapsulation_elects m1 l) as (m0 & Hin0 & Hp0 & _).
    fold p in Hp0. rewrite Hp in Hp0. injection Hp0 as ->.
    unfold inPrimary, enc_eqb_nullable. rewrite Hp.
    apply orb_true_iff. left. apply enc_eqb_eq.
    pose proof (Hcl m Hin) as Hm. pose proof (Hcl m0 Hin0) as Hm0.
    destruct (encOf m) as [x|]; [|congruence].
    destruct (encOf m0) as [y|]; [|congruence].
    f_equal. now apply modeOf_classified_inj.
Qed.

(* ================================================================== *)
(** ** Deterministic sorter *)

Section SorterFacts.

Lemma leb_lt_or_eq a b :
  String.leb a b = true <-> String_as_OT.lt a b \/ a = b.
Proof.
  unfold String.leb.
  pose proof (String_as_OT.cmp_lt a b) as Hlt.
  pose proof (String_as_OT.cmp_eq a b) as Heq.
  unfold String_as_OT.cmp in *.
  destruct (String.compare a b); split; intros H; trivial;
    try discriminate.
  - right. now apply Heq.
  - left. now apply Hlt.
  - destruct H as [H|H]; [apply Hlt in H | apply Heq in H]; discriminate.
Qed.

Lemma leb_trans a b c :
  String.leb a b = true -> String.leb b c = true -> String.leb a c = true.
Proof.
  rewrite !leb_lt_or_eq. intros [H1 | ->] [H2 | ->]; auto.
  left. eapply String_as_OT.lt_trans; eassumption.
Qed.

Lemma tagLe_trans : Relation_Definitions.transitive _ tagLe.
Proof. intros a b c. unfold tagLe. apply leb_trans. Qed.

Lemma firstTagLe_trans : Relation_Definitions.transitive _ firstTagLe.
Proof.
  intros a b c. unfold firstTagLe.
  destruct (moduleFiles a), (moduleFiles b), (moduleFiles c);
    try contradiction. apply tagLe_trans.
Qed.

(** The verdict of the tag comparator, read as an order on tags. *)
Lemma byTagName_keeps a b : keeps byTagName a b <-> tagLe a b.
Proof.
  unfold keeps, byTagName, tagLe, Js.lt, Js.gt, String.ltb, String.leb.
  rewrite (String.compare_antisym a.(cmpMeta).(tagNameMeta)).
  unfold tagOf. destruct (String.compare _ _); simpl; split; intros H;
    trivial; try lia; discriminate.
Qed.

Lemma byTagName_flip a b :
  (0 < byTagName a b)%Z -> (byTagName b a <= 0)%Z.
Proof.
  unfold byTagName, Js.lt, Js.gt, String.ltb.
  rewrite (String.compare_antisym (tagOf a)).
  destruct (String.compare _ _); simpl; lia.
Qed.

Lemma Sorted_impl {A} (R S : A -> A -> Prop) l :
  (forall a b, R a b -> S a b) -> Sorted R l -> Sorted S l.
Proof.
  intros H. induction 1 as [|x l Hs IH Hhd]; constructor; trivial.
  destruct Hhd; constructor; auto.
Qed.

(** The module-level sort puts the tags in ascending order. *)
Lemma sort_byTagName_ascending l :
  StronglySorted tagLe (sort byTagName l).
Proof.
  apply Sorted_StronglySorted; [exact tagLe_trans|].
  apply Sorted_impl with (R := keeps byTagName).
  - intros a b. apply byTagName_keeps.
  - apply sort_Sorted, byTagName_flip.
Qed.

Lemma sortModuleFiles_idempotent b :
  sortModuleFiles (sortModuleFiles b) = sortModuleFiles b.
Proof.
  unfold sortModuleFiles, setModuleFiles. simpl.
  now rewrite (sort_idempotent byTagName byTagName_flip).
Qed.

Lemma sortModuleFiles_members b :
  Permutation (moduleFiles (sortModuleFiles b)) (moduleFiles b) /\
  compiledModuleText (sortModuleFiles b) = compiledModuleText b.
Proof. split; [apply sort_Permutation | reflexivity]. Qed.

Lemma sortModuleFiles_inhabited b :
  moduleFiles b <> [] -> moduleFiles (sortModuleFiles b) <> [].
Proof.
  intros H E. apply H.
  apply Permutation_nil. rewrite <- E.
  exact (sort_Permutation byTagName (moduleFiles b)).
Qed.

(** On bundles that have a first module the bundle comparator does
    not throw. *)
Lemma byFirstTagName_defined a b :
  moduleFiles a <> [] -> moduleFiles b <> [] ->
  byFirstTagName a b = Return (byFirstTagNameOf a b).
Proof.
  unfold byFirstTagName, byFirstTagNameOf, firstTagName, byTagName.
  destruct (moduleFiles a), (moduleFiles b); simpl; intros Ha Hb;
    congruence.
Qed.

Lemma byFirstTagName_returns a b z :
  byFirstTagName a b = Return z ->
  moduleFiles a <> [] /\ moduleFiles b <> [] /\ z = byFirstTagNameOf a b.
Proof.
  unfold byFirstTagName, byFirstTagNameOf, firstTagName, byTagName.
  destruct (moduleFiles a), (moduleFiles b); simpl; intros H;
    try discriminate.
  inversion H. repeat split; discriminate.
Qed.

Lemma byFirstTagName_keeps a b :
  keepsM byFirstTagName a b <-> firstTagLe a b.
Proof.
  unfold keepsM, firstTagLe. split.
  - intros (z & Hz & Hle). apply byFirstTagName_returns in Hz.
    destruct Hz as (Ha & Hb & ->). unfold byFirstTagNameOf in Hle.
    destruct (moduleFiles a), (moduleFiles b); try congruence.
    now apply byTagName_keeps.
  - intros H. exists (byFirstTagNameOf a b).
    unfold byFirstTagNameOf.
    destruct (moduleFiles a) eqn:Ea, (moduleFiles b) eqn:Eb;
      try contradiction.
    split; [|now apply byTagName_keeps].
    rewrite byFirstTagName_defined by congruence.
    unfold byFirstTagNameOf. now rewrite Ea, Eb.
Qed.

Lemma byFirstTagName_flip a b z :
  byFirstTagName a b = Return z -> (0 < z)%Z -> keepsM byFirstTagName b a.
Proof.
  intros Hz Hpos. apply byFirstTagName_returns in Hz.
  destruct Hz as (Ha & Hb & ->).
  exists (byFirstTagNameOf b a). split.
  - now apply byFirstTagName_defined.
  - unfold byFirstTagNameOf in *.
    destruct (moduleFiles a), (moduleFiles b); try congruence.
    now apply byTagName_flip.
Qed.

Lemma map_fixed {A} (f : A -> A) l :
  Forall (fun x => f x = x) l -> map f l = l.
Proof. induction 1; simpl; congruence. Qed.

(** Whatever [sortBundles] returns is made of module-sorted bundles,
    is in order, and is a rearrangement of its module-sorted input. *)
Lemma sortBundles_returns bs r :
  sortBundles bs = Return r ->
  Permutation r (map sortModuleFiles bs) /\
  Sorted (keepsM byFirstTagName) r /\
  Forall (fun b => sortModuleFiles b = b) r.
Proof.
  unfold sortBundles. intros H.
  pose proof (sortM_Permutation _ _ _ H) as Hperm.
  split; [exact Hperm|]. split.
  - eapply sortM_Sorted; [exact byFirstTagName_flip | exact H].
  - apply Forall_forall. intros b Hb.
    apply (Permutation_in _ Hperm) in Hb. apply in_map_iff in Hb.
    destruct Hb as (b0 & <- & _). apply sortModuleFiles_idempotent.
Qed.

(** It returns as soon as every bundle has a module. *)
Lemma sortBundles_defined bs :
  Forall (fun b => moduleFiles b <> []) bs ->
  sortBundles bs =
    Return (sort byFirstTagNameOf (map sortModuleFiles bs)).
Proof.
  intros Hne. unfold sortBundles. apply sortM_total.
  intros x y Hx Hy. apply in_map_iff in Hx, Hy.
  destruct Hx as (x0 & <- & Hx), Hy as (y0 & <- & Hy).
  rewrite Forall_forall in Hne.
  apply byFirstTagName_defined; apply sortModuleFiles_inhabited; auto.
Qed.

Lemma totalModules_Permutation a b :
  Permutation a b -> totalModules a = totalModules b.
Proof.
  intros H. unfold totalModules.
  induction H; simpl; lia.
Qed.

Lemma totalModules_sortModuleFiles bs :
  totalModules (map sortModuleFiles bs) = totalModules bs.
Proof.
  unfold totalModules. induction bs as [|b bs IH]; simpl; [reflexivity|].
  now rewrite IH, sort_length.
Qed.

End SorterFacts.

Lemma allModules_sortModuleFiles bs :
  Permutation (allModules (map sortModuleFiles bs)) (allModules bs).
Proof.
  unfold allModules. induction bs as [|b bs IH]; simpl; [constructor|].
  apply Permutation_app; [apply sort_Permutation | exact IH].
Qed.

(** C5. Given bundles that each hold a module, [sortBundles] returns a
    list in which every bundle has its modules in ascending order of
    tag name and the bundles are in ascending order of the tag name of
    their first module. The list is a rearrangement of the given
    bundles, each with its own modules rearranged and its other
    content untouched, so the number of modules and the modules
    themselves are those of the input. *)
Theorem sortBundles_orders_and_keeps bs :
  Forall (fun b => moduleFiles b <> []) bs ->
  exists r,
    sortBundles bs = Return r /\
    Forall (fun b => StronglySorted tagLe (moduleFiles b)) r /\
    StronglySorted firstTagLe r /\
    Permutation r (map sortModuleFiles bs) /\
    (forall b, Permutation (moduleFiles (sortModuleFiles b)) (moduleFiles b) /\
               compiledModuleText (sortModuleFiles b) = compiledModuleText b) /\
    totalModules r = totalModules bs /\
    Permutation (allModules r) (allModules bs).
Proof.
  intros Hne. eexists. split; [now apply sortBundles_defined|].
  pose proof (sortBundles_defined bs Hne) as Hr.
  apply sortBundles_returns in Hr. destruct Hr as (Hperm & Hsorted & _).
  split; [|split; [|split; [|split; [|split]]]].
  - apply Forall_forall. intros b Hb.
    apply (Permutation_in _ Hperm) in Hb. apply in_map_iff in Hb.
    destruct Hb as (b0 & <- & _). apply sort_byTagName_ascending.
  - apply Sorted_StronglySorted; [exact firstTagLe_trans|].
    eapply Sorted_impl; [|exact Hsorted].
    intros a b. apply byFirstTagName_keeps.
  - exact Hperm.
  - apply sortModuleFiles_members.
  - rewrite (totalModules_Permutation _ _ Hperm).
    apply totalModules_sortModuleFiles.
  - eapply Permutation_trans; [|apply allModules_sortModuleFiles].
    unfold allModules. now apply Permutation_flat_map.
Qed.

(** C8. Sorting what [sortBundles] returned gives the same list again;
    when the first call throws, so does the composition. *)
Theorem sortBundles_idempotent bs :
  Js.bind (sortBundles bs) sortBundles = sortBundles bs.
Proof.
  destruct (sortBundles bs) as [r|e] eqn:E; simpl; [|reflexivity].
  apply sortBundles_returns in E. destruct E as (_ & Hsorted & Hfix).
  unfold sortBundles. rewrite (map_fixed _ _ Hfix).
  now apply sortM_fixed.
Qed.

(* ================================================================== *)
(** ** Tag resolver *)

Section ResolverFacts.

Variable ms : list ModuleFile.

(** Assigning [messageText] on the record [buildError] returned
    changes the record it has just pushed. *)
Lemma setMessageText_pushed ds d msg :
  setMessageText (List.length ds) msg (ds ++ [d]) =
    ds ++ [{| level := level d; type := type d; header := header d;
              messageText := msg |}].
Proof. induction ds as [|x ds IH]; simpl; [reflexivity | now rewrite IH]. Qed.

Lemma resolveTag_step mb ds tag :
  resolveTag ms (mb, ds) tag =
    (setModuleFiles mb (moduleFiles mb ++ resolved ms [tag]),
     ds ++ map missingTagDiagnostic (missing ms [tag])).
Proof.
  unfold resolveTag, resolved, missing, matches, buildError. simpl.
  destruct (findModule ms tag); simpl.
  - now rewrite !app_nil_r.
  - rewrite setMessageText_pushed, !app_nil_r.
    destruct mb; reflexivity.
Qed.

Lemma resolved_cons tag tags :
  resolved ms (tag :: tags) = resolved ms [tag] ++ resolved ms tags.
Proof. unfold resolved. simpl. now rewrite app_nil_r. Qed.

Lemma missing_cons tag tags :
  missing ms (tag :: tags) = missing ms [tag] ++ missing ms tags.
Proof. unfold missing. simpl. now destruct (matches ms tag). Qed.

(** The inner loop: found modules are pushed in the order of the
    tags, and each tag without a module leaves one diagnostic. *)
Lemma resolveTag_fold tags mb ds :
  fold_left (resolveTag ms) tags (mb, ds) =
    (setModuleFiles mb (moduleFiles mb ++ resolved ms tags),
     ds ++ map missingTagDiagnostic (missing ms tags)).
Proof.
  revert mb ds. induction tags as [|tag tags IH]; intros mb ds.
  - simpl. rewrite !app_nil_r. now destruct mb.
  - cbn [fold_left]. rewrite resolveTag_step, IH.
    rewrite (resolved_cons tag tags), (missing_cons tag tags), map_app.
    cbn [setModuleFiles moduleFiles compiledModuleText].
    now rewrite <- !app_assoc.
Qed.

(** The outer loop body: at most one bundle per declaration. *)
Lemma resolveBundle_step mbs ds b :
  resolveBundle ms (mbs, ds) b =
    (mbs ++ newBundle (resolved ms (componentsOf b)),
     ds ++ map missingTagDiagnostic (missing ms (componentsOf b))).
Proof.
  unfold resolveBundle. rewrite resolveTag_fold.
  cbn [createManifestBundle setModuleFiles moduleFiles compiledModuleText app].
  destruct (resolved ms (componentsOf b)) as [|m l]; simpl.
  - now rewrite app_nil_r.
  - reflexivity.
Qed.

Lemma resolveBundle_fold bs mbs ds :
  fold_left (resolveBundle ms) bs (mbs, ds) =
    (mbs ++ flat_map (fun b => newBundle (resolved ms (componentsOf b))) bs,
     ds ++ flat_map (fun b => map missingTagDiagnostic
                                (missing ms (componentsOf b))) bs).
Proof.
  revert mbs ds. induction bs as [|b bs IH]; intros mbs ds.
  - simpl. now rewrite !app_nil_r.
  - cbn [fold_left flat_map]. rewrite resolveBundle_step, IH.
    now rewrite <- !app_assoc.
Qed.

(** A declaration without tags resolves to nothing and misses
    nothing. *)
Lemma componentsOf_skipped b : hasComponents b = false -> componentsOf b = [].
Proof.
  unfold hasComponents, componentsOf.
  destruct (components b) as [[|t l]|]; congruence.
Qed.

Lemma flat_map_filter_skipped {A B} (keep : A -> bool) (f : A -> list B) l :
  (forall a, keep a = false -> f a = []) ->
  flat_map f (filter keep l) = flat_map f l.
Proof.
  intros H. induction l as [|a l IH]; simpl; [reflexivity|].
  destruct (keep a) eqn:E; simpl; rewrite IH; [reflexivity|].
  now rewrite (H a E).
Qed.

Lemma getManifestBundles_eq bs ds :
  getManifestBundles ms bs ds =
    (flat_map (fun b => newBundle (resolved ms (componentsOf b))) bs,
     ds ++ flat_map (fun b => map missingTagDiagnostic
                                (missing ms (componentsOf b))) bs).
Proof.
  unfold getManifestBundles. rewrite resolveBundle_fold. simpl. f_equal.
  - apply flat_map_filter_skipped. intros b Hb.
    now rewrite (componentsOf_skipped b Hb).
  - f_equal. apply flat_map_filter_skipped. intros b Hb.
    now rewrite (componentsOf_skipped b Hb).
Qed.

Lemma findModule_tag tag m : findModule ms tag = Some m -> tagOf m = tag.
Proof.
  unfold findModule. intros H. apply find_some in H as [_ H].
  now apply String.eqb_eq.
Qed.

(** The tags of the resolved modules are the matching tags, in the
    order of the declaration. *)
Lemma resolved_tags tags :
  map tagOf (resolved ms tags) = filter (matches ms) tags.
Proof.
  unfold resolved, matches. induction tags as [|tag tags IH]; simpl;
    [reflexivity|].
  destruct (findModule ms tag) as [m|] eqn:E; simpl.
  - now rewrite IH, (findModule_tag tag m E).
  - exact IH.
Qed.

Lemma resolved_found tags :
  Forall2 (fun m tag => findModule ms tag = Some m)
    (resolved ms tags) (filter (matches ms) tags).
Proof.
  unfold resolved, matches. induction tags as [|tag tags IH]; simpl;
    [constructor|].
  destruct (findModule ms tag) as [m|] eqn:E; simpl.
  - now constructor.
  - exact IH.
Qed.

Lemma allModules_newBundles (f : Bundle -> list ModuleFile) bs :
  allModules (flat_map (fun b => newBundle (f b)) bs) = flat_map f bs.
Proof.
  induction bs as [|b bs IH]; simpl; [reflexivity|].
  now rewrite allModules_app, allModules_newBundle, IH.
Qed.

Lemma count_occ_filter_kept (keep : string -> bool) l tag :
  keep tag = true ->
  count_occ string_dec (filter keep l) tag = count_occ string_dec l tag.
Proof.
  intros Hk. induction l as [|x l IH]; simpl; [reflexivity|].
  destruct (keep x) eqn:E; simpl; destruct (string_dec x tag);
    try congruence.
Qed.

(** Resolved tags, over all bundles. *)
Lemma resolved_tags_all bs :
  map tagOf (flat_map (fun b => resolved ms (componentsOf b)) bs) =
    filter (matches ms) (flat_map componentsOf bs).
Proof.
  induction bs as [|b bs IH]; simpl; [reflexivity|].
  now rewrite map_app, filter_app, resolved_tags, IH.
Qed.

Lemma newBundle_inhabited (l : list ModuleFile) :
  Forall (fun b => moduleFiles b <> []) (newBundle l).
Proof. destruct l; simpl; repeat constructor. discriminate. Qed.

End ResolverFacts.

Lemma length_append (a b : string) :
  String.length (a ++ b)%string = String.length a + String.length b.
Proof. induction a; simpl; congruence. Qed.

Lemma append_inv_head (p a b : string) :
  (p ++ a)%string = (p ++ b)%string -> a = b.
Proof. induction p; simpl; intros H; [exact H | inversion H; auto]. Qed.

Lemma append_inv_tail (s a b : string) :
  (a ++ s)%string = (b ++ s)%string -> a = b.
Proof.
  revert b. induction a as [|c a IH]; intros [|d b] H; simpl in H.
  - reflexivity.
  - apply (f_equal String.length) in H. simpl in H.
    rewrite length_append in H. lia.
  - apply (f_equal String.length) in H. simpl in H.
    rewrite length_append in H. lia.
  - inversion H. f_equal. now apply IH.
Qed.

(** The message determines the tag it was written for. *)
Lemma missingTagMessage_inj t1 t2 :
  missingTagMessage t1 = missingTagMessage t2 -> t1 = t2.
Proof.
  unfold missingTagMessage. intros H.
  apply append_inv_head in H. apply append_inv_head in H.
  now apply append_inv_tail in H.
Qed.

(** ** The lookup, in terms of the module list *)

(** The lookup finds a module exactly when the list carries the tag. *)
Lemma matches_carried ms tag : matches ms tag = carried ms tag.
Proof.
  unfold matches, carried, findModule.
  induction ms as [|x l IH]; simpl; [reflexivity|].
  destruct (String.eqb (tagOf x) tag); simpl; [reflexivity | exact IH].
Qed.

Lemma carried_iff ms tag :
  carried ms tag = true <-> exists m, In m ms /\ tagOf m = tag.
Proof.
  unfold carried. rewrite existsb_exists.
  split; intros (m & H1 & H2); exists m; split; trivial;
    now apply String.eqb_eq.
Qed.

(** The module the lookup returns is the first one carrying the tag. *)
Lemma findModule_first ms tag m :
  findModule ms tag = Some m -> firstCarrying ms tag m.
Proof.
  unfold findModule, firstCarrying.
  induction ms as [|x l IH]; simpl; [discriminate|].
  destruct (String.eqb (tagOf x) tag) eqn:E; intros H.
  - injection H as <-. exists [], l. split; [reflexivity|].
    split; [now apply String.eqb_eq|]. intros y [].
  - destruct (IH H) as (l1 & l2 & -> & Ht & Hn).
    exists (x :: l1), l2. split; [reflexivity|]. split; [exact Ht|].
    intros y [<-|Hy]; [now apply String.eqb_neq | now apply Hn].
Qed.

Lemma resolved_tags_carried ms tags :
  map tagOf (resolved ms tags) = filter (carried ms) tags.
Proof.
  rewrite resolved_tags. apply filter_ext. intros tag.
  apply matches_carried.
Qed.

(** The modules resolved for a list of tags are the first carriers of
    the carried tags, in the order of the tags. *)
Lemma resolved_first ms tags :
  Forall2 (fun m tag => firstCarrying ms tag m)
    (resolved ms tags) (filter (carried ms) tags).
Proof.
  induction tags as [|tag tags IH]; [constructor|].
  rewrite (resolved_cons ms tag tags). cbn [filter].
  rewrite <- (matches_carried ms tag). unfold resolved at 1, matches.
  cbn [flat_map]. rewrite app_nil_r.
  destruct (findModule ms tag) as [m|] eqn:E; cbn [app].
  - constructor; [now apply findModule_first | exact IH].
  - exact IH.
Qed.

Lemma existsb_filter_inhabited {A} (f : A -> bool) l :
  existsb f l = negb (isEmpty (filter f l)).
Proof.
  induction l as [|a l IH]; simpl; [reflexivity|].
  destruct (f a); simpl; [reflexivity | exact IH].
Qed.

Lemma existsb_filter_kept (keep : string -> bool) tag l :
  keep tag = true ->
  existsb (String.eqb tag) (filter keep l) = existsb (String.eqb tag) l.
Proof.
  intros Hk. induction l as [|x l IH]; simpl; [reflexivity|].
  destruct (keep x) eqn:E; simpl; rewrite IH; [reflexivity|].
  destruct (String.eqb tag x) eqn:E2; [|reflexivity].
  apply String.eqb_eq in E2. congruence.
Qed.

Lemma holdsTag_tags tag b :
  holdsTag tag b = existsb (String.eqb tag) (map tagOf (moduleFiles b)).
Proof.
  unfold holdsTag. induction (moduleFiles b) as [|m l IH]; simpl;
    [reflexivity|].
  now rewrite IH, String.eqb_sym.
Qed.

(** One bundle for each declaration that lists a carried tag, in the
    order of the declarations. *)
Lemma resolver_bundles_per_declaration ms bs :
  Forall2
    (fun mb d =>
       compiledModuleText mb = EmptyString /\
       Forall2 (fun m tag => firstCarrying ms tag m)
         (moduleFiles mb) (filter (carried ms) (componentsOf d)))
    (flat_map (fun b => newBundle (resolved ms (componentsOf b))) bs)
    (filter (listsCarried ms) bs).
Proof.
  induction bs as [|d bs IH]; simpl; [constructor|].
  pose proof (resolved_first ms (componentsOf d)) as Hf.
  pose proof (resolved_tags_carried ms (componentsOf d)) as Ht.
  unfold listsCarried at 1. rewrite existsb_filter_inhabited, <- Ht.
  destruct (resolved ms (componentsOf d)) as [|m l]; simpl.
  - exact IH.
  - constructor; [|exact IH]. split; [reflexivity | exact Hf].
Qed.

(** A carried tag is held by as many bundles as declarations list
    it. *)
Lemma resolver_bundles_holding ms tag bs :
  carried ms tag = true ->
  List.length
    (filter (holdsTag tag)
       (flat_map (fun b => newBundle (resolved ms (componentsOf b))) bs)) =
  List.length (filter (listsTag tag) bs).
Proof.
  intros Hc. induction bs as [|d bs IH]; simpl; [reflexivity|].
  rewrite filter_app, length_app, IH.
  assert (H : List.length
                (filter (holdsTag tag)
                   (newBundle (resolved ms (componentsOf d)))) =
              if listsTag tag d then 1 else 0).
  { pose proof (resolved_tags_carried ms (componentsOf d)) as Ht.
    unfold listsTag.
    rewrite <- (existsb_filter_kept (carried ms) tag (componentsOf d) Hc).
    rewrite <- Ht.
    destruct (resolved ms (componentsOf d)) as [|m l]; [reflexivity|].
    unfold newBundle. cbn [filter]. rewrite holdsTag_tags.
    cbn [createManifestBundle moduleFiles].
    destruct (existsb (String.eqb tag) (map tagOf (m :: l))); reflexivity. }
  rewrite H. destruct (listsTag tag d); reflexivity.
Qed.

Lemma filter_length_one {A} (f : A -> bool) l :
  List.length (filter f l) = 1 ->
  exists l1 x l2,
    l = l1 ++ x :: l2 /\ f x = true /\
    forall y, In y (l1 ++ l2) -> f y = false.
Proof.
  induction l as [|a l IH]; simpl; [discriminate|].
  destruct (f a) eqn:E; simpl; intros H.
  - exists [], a, l. split; [reflexivity|]. split; [exact E|].
    intros y Hy. simpl in Hy. destruct (f y) eqn:Ey; [|reflexivity].
    assert (Hin : In y (filter f l)) by (apply filter_In; auto).
    destruct (filter f l); [contradiction | discriminate H].
  - destruct (IH H) as (l1 & x & l2 & -> & Hx & Hn).
    exists (a :: l1), x, l2. split; [reflexivity|]. split; [exact Hx|].
    intros y [<-|Hy]; [exact E | now apply Hn].
Qed.

(** C6, as the claim states it: every declared tag that matches a
    module would be held by exactly one bundle of the resolver. It is
    not: each declaration is resolved on its own, so a tag that two
    declarations list is held by the bundles of both. *)
Lemma matching_tag_in_two_bundles :
  map componentsOf Sample.buttonTwice =
    [["a-btn"; "a-card"]; ["a-icon"; "a-btn"]] /\
  fst (getManifestBundles Sample.modules Sample.buttonTwice []) =
    [{| moduleFiles := [Sample.aBtn; Sample.aCard];
        compiledModuleText := EmptyString |};
     {| moduleFiles := [Sample.aIcon; Sample.aBtn];
        compiledModuleText := EmptyString |}] /\
  List.length
    (filter (holdsTag "a-btn")
       (fst (getManifestBundles Sample.modules Sample.buttonTwice []))) = 2 /\
  ~ (forall ms bs ds tag,
       (exists m, In m ms /\ tagOf m = tag) ->
       In tag (flat_map componentsOf bs) ->
       List.length
         (filter (holdsTag tag) (fst (getManifestBundles ms bs ds))) = 1).
Proof.
  split; [reflexivity|]. split; [reflexivity|]. split; [reflexivity|].
  intros H.
  specialize (H Sample.modules Sample.buttonTwice [] "a-btn").
  assert (H1 : exists m, In m Sample.modules /\ tagOf m = "a-btn").
  { exists Sample.aBtn. split; [now left | reflexivity]. }
  assert (H2 : In "a-btn" (flat_map componentsOf Sample.buttonTwice))
    by now left.
  specialize (H H1 H2). discriminate H.
Qed.

(** C6, amended. A tag matches exactly when some module of the list
    has it as its tag name. The resolver returns one new bundle for
    each declaration that lists a matching tag, in the order of the
    declarations; the modules of that bundle answer, one for one and in
    the order the declaration lists them, the matching tags of the
    declaration, each being the first module of the list with that tag
    name. A matching tag is held by exactly one bundle for each
    declaration that lists it: by exactly one bundle when a single
    declaration lists it, and by the bundles of all the declarations
    that list it otherwise. Counted over all bundles, it occurs as
    often as it is declared. *)
Theorem getManifestBundles_resolves_tags ms bs ds :
  let out := fst (getManifestBundles ms bs ds) in
  (forall tag, matches ms tag = true <-> exists m, In m ms /\ tagOf m = tag) /\
  (forall tag, carried ms tag = matches ms tag) /\
  Forall2
    (fun mb d =>
       compiledModuleText mb = EmptyString /\
       Forall2
         (fun m tag =>
            exists l1 l2,
              ms = l1 ++ m :: l2 /\ tagOf m = tag /\
              forall x, In x l1 -> tagOf x <> tag)
         (moduleFiles mb) (filter (carried ms) (componentsOf d)))
    out (filter (listsCarried ms) bs) /\
  (forall tag, carried ms tag = true ->
      List.length (filter (holdsTag tag) out) =
      List.length (filter (listsTag tag) bs)) /\
  (forall tag, carried ms tag = true ->
      List.length (filter (listsTag tag) bs) = 1 ->
      exists l1 mb l2,
        out = l1 ++ mb :: l2 /\ holdsTag tag mb = true /\
        forall x, In x (l1 ++ l2) -> holdsTag tag x = false) /\
  (forall tag, carried ms tag = true ->
      count_occ string_dec (map tagOf (allModules out)) tag =
      count_occ string_dec (flat_map componentsOf bs) tag).
Proof.
  intros out. subst out. rewrite getManifestBundles_eq. cbn [fst].
  split; [|split; [|split; [|split; [|split]]]].
  - intros tag. rewrite matches_carried. apply carried_iff.
  - intros tag. symmetry. apply matches_carried.
  - apply resolver_bundles_per_declaration.
  - intros tag Hc. now apply resolver_bundles_holding.
  - intros tag Hc H1. apply filter_length_one.
    now rewrite resolver_bundles_holding.
  - intros tag Hc.
    rewrite allModules_newBundles, resolved_tags_all.
    apply count_occ_filter_kept. now rewrite matches_carried.
Qed.

Lemma filter_none_kept {A} (f : A -> bool) l :
  filter f l = [] -> filter (fun x => negb (f x)) l = l.
Proof.
  induction l as [|x l IH]; simpl; [reflexivity|].
  destruct (f x); simpl; [discriminate|]. intros H. f_equal. now apply IH.
Qed.

(** C7, as the claim states it: were the diagnostic to identify the
    declaring bundle, the declaration could be read back from it. It
    cannot: two different declarations naming the same absent
    component leave the same diagnostic. *)
Lemma missing_tag_diagnostic_omits_bundle :
  snd (getManifestBundles Sample.modules
         [Sample.withMissing1; Sample.withMissing2] []) =
    [missingTagDiagnostic "missing-cmp"; missingTagDiagnostic "missing-cmp"] /\
  Sample.withMissing1 <> Sample.withMissing2 /\
  ~ (exists declaring : Diagnostic -> Bundle,
       forall ms b d,
         In d (snd (getManifestBundles ms [b] [])) -> declaring d = b).
Proof.
  split; [reflexivity|]. split; [discriminate|].
  intros (declaring & H).
  assert (H1 : declaring (missingTagDiagnostic "missing-cmp") =
               Sample.withMissing1).
  { apply (H Sample.modules). now left. }
  assert (H2 : declaring (missingTagDiagnostic "missing-cmp") =
               Sample.withMissing2).
  { apply (H Sample.modules). now left. }
  rewrite H1 in H2. discriminate.
Qed.

(** C7, amended. The resolver appends to the diagnostics one record
    for each occurrence of a tag that no module carries, in the order
    of the declarations and of their tags; the record is of level
    [error] and its message names the tag, from which the tag can be
    read back. Misses stop nothing: the bundles returned are those of
    all the declarations and all their matching tags. A declaration
    without tags leaves no bundle and no diagnostic, and one whose tags
    all miss leaves no bundle and only the diagnostics of its tags. *)
Theorem getManifestBundles_reports_missing_tags ms bs ds :
  snd (getManifestBundles ms bs ds) = ds ++ missingDiagnostics ms bs /\
  (forall tag, level (missingTagDiagnostic tag) = LevelError /\
               messageText (missingTagDiagnostic tag) = missingTagMessage tag) /\
  (forall t1 t2, missingTagMessage t1 = missingTagMessage t2 -> t1 = t2) /\
  fst (getManifestBundles ms bs ds) =
    flat_map (fun b => newBundle (resolved ms (componentsOf b))) bs /\
  (forall b, hasComponents b = false ->
             newBundle (resolved ms (componentsOf b)) = [] /\
             missing ms (componentsOf b) = []) /\
  (forall b, resolved ms (componentsOf b) = [] ->
             newBundle (resolved ms (componentsOf b)) = [] /\
             missing ms (componentsOf b) = componentsOf b).
Proof.
  rewrite getManifestBundles_eq. cbn [fst snd].
  split; [|split; [|split; [|split; [|split]]]].
  - f_equal. unfold missingDiagnostics.
    induction bs as [|b l IH]; simpl; [reflexivity|].
    now rewrite map_app, IH.
  - intros tag. split; reflexivity.
  - apply missingTagMessage_inj.
  - reflexivity.
  - intros b Hb. rewrite (componentsOf_skipped b Hb). split; reflexivity.
  - intros b Hb. rewrite Hb. split; [reflexivity|].
    unfold missing. apply filter_none_kept.
    rewrite <- resolved_tags, Hb. reflexivity.
Qed.

(** C10. Every bundle the resolver returns holds a module, so the
    validator never meets an empty bundle on the resolver's output;
    every validated bundle holds a module too, also after its modules
    are sorted, so the first-module access of the bundle comparator is
    defined on each of them and [sortBundles] returns. *)
Theorem pipeline_bundles_inhabited ms bs ds :
  let pre := fst (getManifestBundles ms bs ds) in
  Forall (fun b => moduleFiles b <> []) pre /\
  Forall (fun b => moduleFiles b <> []) (validateBundleModules pre) /\
  Forall (fun b => exists t, firstTagName b = Return t)
    (map sortModuleFiles (validateBundleModules pre)) /\
  exists r, sortBundles (validateBundleModules pre) = Return r.
Proof.
  intros pre.
  assert (Hv : Forall (fun b => moduleFiles b <> [])
                 (validateBundleModules pre)).
  { eapply Forall_impl; [|apply validated_consistent].
    intros b [H _]. exact H. }
  split; [|split; [exact Hv|split]].
  - subst pre. clear Hv. rewrite getManifestBundles_eq. cbn [fst].
    induction bs as [|b l IH]; simpl; [constructor|].
    apply Forall_app. split; [apply newBundle_inhabited | exact IH].
  - apply Forall_forall. intros b Hb. apply in_map_iff in Hb.
    destruct Hb as (b0 & <- & Hb0). rewrite Forall_forall in Hv.
    pose proof (sortModuleFiles_inhabited b0 (Hv b0 Hb0)) as Hne.
    unfold firstTagName. destruct (moduleFiles (sortModuleFiles b0));
      [congruence | eauto].
  - eexists. now apply sortBundles_defined.
Qed.

(* ================================================================== *)
(** ** Orchestrator *)

Section OrchestratorFacts.

Variable upgradeDependentComponents : Collaborator.
Variable bundleStylesAndModules : Collaborator.
Variable generateBundles : Collaborator.

Lemma world_eta w : {| ctx := ctx w; logged := logged w |} = w.
Proof. now destruct w. Qed.

(** With a prior error the run is over before anything is touched. *)
Lemma bundle_prior_error config w :
  hasError (diagnostics (ctx w)) = true ->
  bundle upgradeDependentComponents bundleStylesAndModules generateBundles
    config w = (Return tt, w).
Proof.
  intros H. unfold bundle, Build.bind, getCtx. now rewrite H.
Qed.

(** Without one, the run is the announced world put through the
    guarded statements. *)
Lemma bundle_guarded config w :
  hasError (diagnostics (ctx w)) = false ->
  bundle upgradeDependentComponents bundleStylesAndModules generateBundles
    config w =
    match bundleBody upgradeDependentComponents bundleStylesAndModules
            generateBundles config (started config w) with
    | (Return _, w') =>
        (Return tt, {| ctx := ctx w'; logged := logged w' ++ ["bundle finished"] |})
    | (Throw e, w') => (Return tt, caught e w')
    end.
Proof.
  intros H. unfold bundle, started, caught.
  unfold Build.bind at 1. unfold getCtx at 1. rewrite H.
  unfold Build.bind, Build.when, Build.log, Build.ret, Build.tryCatch,
    getCtx, putCtx.
  destruct (generateWWW config), (generateDistribution config);
    cbn [fst snd ctx logged];
    match goal with
    | |- context [bundleBody ?a ?b ?c ?d ?w] =>
        destruct (bundleBody a b c d w) as [[[]|e] w']
    end; reflexivity.
Qed.

End OrchestratorFacts.

(** C9. A run that finds an error among the diagnostics at entry
    returns at once and leaves the world as it was: no bundle is
    computed, the context is unchanged, nothing is logged. Otherwise,
    whatever the collaborators do, the run returns normally: an
    exception thrown by any statement under [try] ends those
    statements, and one error diagnostic carrying it is appended to the
    diagnostics the context held at that point. *)
Theorem bundle_short_circuits_and_catches
    (upgradeDependentComponents bundleStylesAndModules generateBundles
       : Collaborator) (config : BuildConfig) (w : World) :
  (hasError (diagnostics (ctx w)) = true ->
   bundle upgradeDependentComponents bundleStylesAndModules generateBundles
     config w = (Return tt, w)) /\
  fst (bundle upgradeDependentComponents bundleStylesAndModules
         generateBundles config w) = Return tt /\
  (hasError (diagnostics (ctx w)) = false ->
   forall e w',
     bundleBody upgradeDependentComponents bundleStylesAndModules
       generateBundles config (started config w) = (Throw e, w') ->
     bundle upgradeDependentComponents bundleStylesAndModules generateBundles
       config w = (Return tt, caught e w') /\
     diagnostics (ctx (caught e w')) =
       diagnostics (ctx w') ++
         [{| level := LevelError; type := "build"; header := "build error";
             messageText := e |}] /\
     manifestBundles (ctx (caught e w')) = manifestBundles (ctx w') /\
     hasError (diagnostics (ctx (caught e w'))) = true).
Proof.
  split; [apply bundle_prior_error|]. split.
  - destruct (hasError (diagnostics (ctx w))) eqn:H.
    + now rewrite bundle_prior_error.
    + rewrite bundle_guarded by exact H.
      now destruct (bundleBody _ _ _ _ _) as [[[]|e] w'].
  - intros H e w' Hbody. rewrite bundle_guarded by exact H.
    rewrite Hbody. split; [reflexivity|]. split; [reflexivity|].
    split; [reflexivity|].
    unfold caught, setDiagnostics, catchError, hasError.
    cbn [ctx diagnostics]. rewrite existsb_app. simpl. apply orb_true_r.
Qed.

(* ================================================================== *)
(** ** The properties at work *)

(** A three-way tie goes to the plain bucket. *)
Example three_way_tie :
  findPrimaryEncapsulation Sample.modules = Some (Some NoEncapsulation).
Proof. reflexivity. Qed.

(** One declaration over a shadow, a scoped and a styleless module:
    the styleless module stays in the original bundle, the two others
    get a bundle each, scoped first; sorting then orders the bundles by
    tag. *)
Example mixed_declaration_is_split :
  let pre := fst (getManifestBundles Sample.modules [Sample.declaration] []) in
  pre = [Sample.preliminary] /\
  validateBundleModules pre =
    [createManifestBundle [Sample.aIcon]; createManifestBundle [Sample.aCard];
     createManifestBundle [Sample.aBtn]] /\
  sortBundles (validateBundleModules pre) =
    Return [createManifestBundle [Sample.aBtn];
            createManifestBundle [Sample.aCard];
            createManifestBundle [Sample.aIcon]].
Proof. repeat split. Qed.

(** A missing component is reported and the rest of the declaration is
    resolved. *)
Example missing_component_reported :
  getManifestBundles Sample.modules [Sample.withMissing1] [] =
    ([createManifestBundle [Sample.aBtn]],
     [missingTagDiagnostic "missing-cmp"]).
Proof. reflexivity. Qed.

(** A bundle of one module goes through as it is. *)
Example single_module_unchanged b m :
  moduleFiles b = [m] -> validateManifestBundle [] b = [b].
Proof. intros H. unfold validateManifestBundle. now rewrite H. Qed.

(** The primary value is compared as a value: beside a first plain
    module whose [encapsulation] is unset, a styled module set to
    [NoEncapsulation] goes to the plain overflow bundle. Both bundles
    are of mode none. *)
Example unset_and_none_told_apart :
  validateManifestBundle []
    (createManifestBundle [Sample.unsetCmp; Sample.plainCmp]) =
    [createManifestBundle [Sample.unsetCmp];
     createManifestBundle [Sample.plainCmp]].
Proof. reflexivity. Qed.

(** In the plain overflow group a styled module whose [encapsulation]
    is unset sits beside one set to [NoEncapsulation]: one mode, two
    values. *)
Example unset_and_none_share_plain_overflow :
  validateManifestBundle []
    (createManifestBundle
       [Sample.aCard; Sample.aCard; Sample.aCard;
        Sample.unsetCmp; Sample.plainCmp]) =
    [createManifestBundle [Sample.aCard; Sample.aCard; Sample.aCard];
     createManifestBundle [Sample.unsetCmp; Sample.plainCmp]].
Proof. reflexivity. Qed.

(** A tag declared twice is resolved twice, each time into the bundle
    of its own declaration. *)
Example tag_declared_twice :
  fst (getManifestBundles Sample.modules
         [mkBundle (Some ["a-btn"]); mkBundle (Some ["a-btn"; "a-btn"])] []) =
    [createManifestBundle [Sample.aBtn];
     createManifestBundle [Sample.aBtn; Sample.aBtn]].
Proof. reflexivity. Qed.

(** Sorting an empty bundle beside another one throws. *)
Example empty_bundle_throws :
  sortBundles [createManifestBundle []; Sample.preliminary] = Throw "TypeError".
Proof. reflexivity. Qed.

(** A failing collaborator ends in a diagnostic, not in an exception. *)
Example failing_collaborator_is_reported :
  let w := mkWorld (Sample.context []) [] in
  let r := bundle Sample.quiet Sample.failing Sample.quiet Sample.config w in
  fst r = Return tt /\
  map messageText (diagnostics (ctx (snd r))) = ["style bundling failed"] /\
  logged (snd r) =
    ["bundle, buildDir: www/build"; "bundle started"; "bundle finished"].
Proof. repeat split. Qed.

(** The sorter's guarantee at the validated bundles of the sample
    declaration. *)
Lemma sortBundles_orders_and_keeps_witness :
  Forall (fun b => moduleFiles b <> [])
    (validateBundleModules [Sample.preliminary]) /\
  exists r,
    sortBundles (validateBundleModules [Sample.preliminary]) = Return r /\
    StronglySorted firstTagLe r /\
    totalModules r = totalModules (validateBundleModules [Sample.preliminary]).
Proof.
  assert (H : Forall (fun b => moduleFiles b <> [])
                (validateBundleModules [Sample.preliminary])).
  { vm_compute. repeat constructor; discriminate. }
  split; [exact H|].
  destruct (sortBundles_orders_and_keeps _ H)
    as (r & Hr & _ & Hs & _ & _ & Ht & _).
  exists r. repeat split; assumption.
Defined.

(** The card of the sample, listed by one of two declarations, is held
    by exactly one of the resolver's bundles. *)
Lemma getManifestBundles_resolves_tags_witness :
  carried Sample.modules "a-card" = true /\
  List.length (filter (listsTag "a-card") Sample.buttonTwice) = 1 /\
  exists l1 mb l2,
    fst (getManifestBundles Sample.modules Sample.buttonTwice []) =
      l1 ++ mb :: l2 /\
    holdsTag "a-card" mb = true /\
    forall x, In x (l1 ++ l2) -> holdsTag "a-card" x = false.
Proof.
  split; [reflexivity|]. split; [reflexivity|].
  pose proof (getManifestBundles_resolves_tags
                Sample.modules Sample.buttonTwice []) as H.
  cbv zeta in H. destruct H as (_ & _ & _ & _ & H & _).
  apply H; reflexivity.
Defined.

(** The validator's grouping at the sample bundle, whose modules all
    have their [encapsulation] set: the styleless plain module is in
    the primary group by its mode alone. *)
Lemma validateManifestBundle_groups_witness :
  classified (moduleFiles Sample.preliminary) /\
  findPrimaryEncapsulation (moduleFiles Sample.preliminary) =
    Some (Some NoEncapsulation) /\
  inPrimary (findPrimaryEncapsulation (moduleFiles Sample.preliminary))
    Sample.aIcon = true.
Proof.
  assert (Hc : classified (moduleFiles Sample.preliminary)).
  { intros m [<-|[<-|[<-|[]]]]; discriminate. }
  split; [exact Hc|]. split; [reflexivity|].
  pose proof (validateManifestBundle_groups [] Sample.preliminary) as H.
  cbv zeta in H. destruct H as (_ & _ & _ & _ & _ & _ & _ & H).
  apply (H Hc (Some NoEncapsulation) Sample.aIcon).
  - reflexivity.
  - right. right. now left.
  - reflexivity.
Defined.

(** The orchestrator at a context that already carries an error, and
    at a clean context with a collaborator that throws. *)
Lemma bundle_short_circuits_and_catches_witness :
  hasError (diagnostics (ctx (mkWorld (Sample.context [Sample.priorError]) [])))
    = true /\
  bundle Sample.quiet Sample.failing Sample.quiet Sample.config
    (mkWorld (Sample.context [Sample.priorError]) []) =
    (Return tt, mkWorld (Sample.context [Sample.priorError]) []) /\
  fst (bundle Sample.quiet Sample.failing Sample.quiet Sample.config
         (mkWorld (Sample.context []) [])) = Return tt.
Proof.
  split; [reflexivity|]. split.
  - apply (proj1 (bundle_short_circuits_and_catches Sample.quiet
                    Sample.failing Sample.quiet Sample.config
                    (mkWorld (Sample.context [Sample.priorError]) []))).
    reflexivity.
  - apply (proj1 (proj2 (bundle_short_circuits_and_catches Sample.quiet
                    Sample.failing Sample.quiet Sample.config
                    (mkWorld (Sample.context []) [])))).
Defined.

(* ================================================================== *)
(** * Further properties *)

(** ** The sort, continued *)

Section SortedUnique.

Context {A : Type}.
Variable R : A -> A -> Prop.

(** Two ordered arrangements of the same elements are the same list,
    as soon as no two different elements are each in front of the
    other. *)
Lemma StronglySorted_unique l l' :
  (forall a b, In a l -> In b l -> R a b -> R b a -> a = b) ->
  StronglySorted R l -> StronglySorted R l' -> Permutation l l' -> l = l'.
Proof.
  revert l'. induction l as [|x t IH]; intros l' Hanti Hs Hs' Hp.
  - symmetry. now apply Permutation_nil.
  - destruct l' as [|x' t'].
    + apply Permutation_sym, Permutation_nil in Hp. discriminate.
    + inversion Hs as [|? ? Hst Hx]; subst.
      inversion Hs' as [|? ? Hst' Hx']; subst.
      assert (E : x = x').
      { assert (Hin : In x (x' :: t'))
          by (apply (Permutation_in _ Hp); now left).
        assert (Hin' : In x' (x :: t))
          by (apply (Permutation_in _ (Permutation_sym Hp)); now left).
        destruct Hin as [E|Hin]; [now symmetry|].
        destruct Hin' as [E|Hin']; [exact E|].
        rewrite Forall_forall in Hx, Hx'.
        apply Hanti; [now left | now right | now apply Hx | now apply Hx']. }
      subst x'. f_equal. apply IH; trivial.
      * intros a b Ha Hb. apply Hanti; now right.
      * now apply Permutation_cons_inv in Hp.
Qed.

End SortedUnique.

Section ThrowingSort.

Context {A : Type}.
Variable cM : A -> A -> Exn Z.
Variable bad : A -> bool.
Variable err : string.

Hypothesis good_returns :
  forall a b, bad a = false -> bad b = false -> exists z, cM a b = Return z.
Hypothesis bad_throws :
  forall a b, bad a = true \/ bad b = true -> cM a b = Throw err.

Lemma insertM_good x l :
  bad x = false -> forallb (fun a => negb (bad a)) l = true ->
  exists r, insertM cM x l = Return r.
Proof.
  intros Hx. induction l as [|y l IH]; simpl; intros Hl; [eauto|].
  apply andb_prop in Hl as [Hy Hl]. apply negb_true_iff in Hy.
  destruct (good_returns x y Hx Hy) as [z ->]. simpl.
  destruct (z <=? 0)%Z; [eauto|].
  destruct (IH Hl) as [r ->]. simpl. eauto.
Qed.

Lemma sortM_good l :
  forallb (fun a => negb (bad a)) l = true -> exists r, sortM cM l = Return r.
Proof.
  induction l as [|x l IH]; simpl; intros Hl; [eauto|].
  apply andb_prop in Hl as [Hx Hl]. apply negb_true_iff in Hx.
  destruct (IH Hl) as [s Hs]. rewrite Hs. simpl.
  apply insertM_good; trivial.
  apply forallb_forall. intros a Ha.
  apply (Permutation_in _ (sortM_Permutation cM _ _ Hs)) in Ha.
  rewrite forallb_forall in Hl. now apply Hl.
Qed.

(** With two elements or more, one element the comparator cannot
    handle is enough to make the sort throw. *)
Lemma sortM_bad l :
  2 <= List.length l -> existsb bad l = true -> sortM cM l = Throw err.
Proof.
  induction l as [|x l IH]; simpl; intros Hlen Hbad; [lia|].
  destruct (sortM cM l) as [s|e] eqn:Hs; simpl.
  - pose proof (sortM_Permutation cM _ _ Hs) as Hp.
    destruct s as [|y s].
    + apply Permutation_nil in Hp. subst l. simpl in Hlen. lia.
    + simpl.
      assert (Hxy : bad x = true \/ bad y = true).
      { destruct (bad x) eqn:Hx; [now left|]. right. simpl in Hbad.
        destruct l as [|y0 [|y1 l]].
        - simpl in Hlen. lia.
        - apply Permutation_length in Hp as Hl.
          destruct s; [|simpl in Hl; lia].
          apply Permutation_length_1 in Hp. subst y0.
          simpl in Hbad. now rewrite orb_false_r in Hbad.
        - assert (Ht : Return (y :: s) = Throw err)
            by (apply IH; [simpl; lia | exact Hbad]).
          discriminate. }
      now rewrite (bad_throws x y Hxy).
  - destruct (existsb bad l) eqn:Hl.
    + destruct l as [|y0 [|y1 l]]; [discriminate | discriminate |].
      apply IH; [simpl; lia | reflexivity].
    + exfalso.
      assert (Hg : forallb (fun a => negb (bad a)) l = true).
      { apply forallb_forall. intros a Ha. apply negb_true_iff.
        destruct (bad a) eqn:Ea; trivial.
        assert (existsb bad l = true) by (apply existsb_exists; eauto).
        congruence. }
      destruct (sortM_good l Hg) as [r Hr]. congruence.
Qed.

End ThrowingSort.

(** ** Deterministic sorter, continued *)

Lemma isEmptyBundle_sortModuleFiles b :
  isEmptyBundle (sortModuleFiles b) = isEmptyBundle b.
Proof.
  unfold isEmptyBundle, sortModuleFiles, setModuleFiles. cbn [moduleFiles].
  pose proof (sort_length byTagName (moduleFiles b)) as H.
  destruct (moduleFiles b), (sort byTagName _); simpl in *; congruence.
Qed.

Lemma isEmptyBundle_false b : isEmptyBundle b = false <-> moduleFiles b <> [].
Proof.
  unfold isEmptyBundle. destruct (moduleFiles b); simpl; split; congruence.
Qed.

Lemma byFirstTagName_good a b :
  isEmptyBundle a = false -> isEmptyBundle b = false ->
  exists z, byFirstTagName a b = Return z.
Proof.
  intros Ha Hb. eexists. apply byFirstTagName_defined;
    now apply isEmptyBundle_false.
Qed.

Lemma byFirstTagName_bad a b :
  isEmptyBundle a = true \/ isEmptyBundle b = true ->
  byFirstTagName a b = Throw "TypeError".
Proof.
  unfold isEmptyBundle, byFirstTagName, firstTagName.
  destruct (moduleFiles a), (moduleFiles b); simpl; intros [H|H];
    congruence.
Qed.

Lemma existsb_map {A B} (f : A -> B) (g : B -> bool) l :
  existsb g (map f l) = existsb (fun a => g (f a)) l.
Proof. induction l; simpl; congruence. Qed.

Lemma existsb_pointwise {A} (f g : A -> bool) l :
  (forall a, f a = g a) -> existsb f l = existsb g l.
Proof. intros H. induction l; simpl; congruence. Qed.

Lemma existsb_false_Forall {A} (f : A -> bool) l :
  existsb f l = false -> Forall (fun a => f a = false) l.
Proof.
  induction l as [|a l IH]; simpl; intros H; constructor;
    apply orb_false_iff in H as [H1 H2]; auto.
Qed.

(** X1. [sortBundles] throws exactly when it is given two bundles or
    more and one of them has no module: the bundle comparator then
    reads the tag of a first module that does not exist. In every
    other case, a single empty bundle included, it returns the sorted
    list. *)
Theorem sortBundles_throws_on_empty_bundle bs :
  sortBundles bs =
    if (2 <=? List.length bs)%nat && existsb isEmptyBundle bs
    then Throw "TypeError"
    else Return (sort byFirstTagNameOf (map sortModuleFiles bs)).
Proof.
  destruct (2 <=? List.length bs)%nat eqn:Hlen; simpl.
  - destruct (existsb isEmptyBundle bs) eqn:He.
    + unfold sortBundles.
      apply sortM_bad with (bad := isEmptyBundle).
      * exact byFirstTagName_good.
      * exact byFirstTagName_bad.
      * rewrite length_map. now apply Nat.leb_le.
      * rewrite existsb_map. rewrite <- He. apply existsb_pointwise.
        intros b. apply isEmptyBundle_sortModuleFiles.
    + apply sortBundles_defined.
      eapply Forall_impl; [|apply existsb_false_Forall, He].
      intros b. apply isEmptyBundle_false.
  - apply Nat.leb_gt in Hlen.
    destruct bs as [|b [|b' bs]]; [reflexivity | reflexivity |].
    simpl in Hlen. lia.
Qed.

Lemma oneModeAmongStyled_Permutation l l' :
  Permutation l l' -> oneModeAmongStyled l -> oneModeAmongStyled l'.
Proof.
  intros Hp H m1 m2 H1 H2. apply H;
    eapply Permutation_in; try eassumption; now apply Permutation_sym.
Qed.

Lemma consistent_sortModuleFiles b :
  consistent b -> consistent (sortModuleFiles b).
Proof.
  intros [Hne Hone]. split.
  - now apply sortModuleFiles_inhabited.
  - eapply oneModeAmongStyled_Permutation; [|exact Hone].
    apply Permutation_sym. apply sort_Permutation.
Qed.

(** X2. Sorting keeps what the validator established: when every
    bundle given to [sortBundles] is non-empty with its styled modules
    of one mode, so is every bundle it returns. *)
Theorem sortBundles_keeps_consistent bs r :
  Forall consistent bs -> sortBundles bs = Return r -> Forall consistent r.
Proof.
  intros Hc Hr. apply sortBundles_returns in Hr. destruct Hr as (Hp & _).
  apply Forall_forall. intros b Hb.
  apply (Permutation_in _ Hp) in Hb. apply in_map_iff in Hb.
  destruct Hb as (b0 & <- & Hb0). rewrite Forall_forall in Hc.
  apply consistent_sortModuleFiles. now apply Hc.
Qed.

Lemma NoDup_map_inj {A B} (f : A -> B) l a b :
  NoDup (map f l) -> In a l -> In b l -> f a = f b -> a = b.
Proof.
  induction l as [|x l IH]; simpl; intros Hnd Ha Hb E; [contradiction|].
  inversion Hnd as [|? ? Hx Hnd']; subst.
  destruct Ha as [<-|Ha], Hb as [<-|Hb]; trivial.
  - exfalso. apply Hx. rewrite E. now apply in_map.
  - exfalso. apply Hx. rewrite <- E. now apply in_map.
  - now apply IH.
Qed.

Lemma tagLe_antisym a b : tagLe a b -> tagLe b a -> tagOf a = tagOf b.
Proof. unfold tagLe. apply String.leb_antisym. Qed.

Lemma firstTagLe_antisym a b :
  firstTagLe a b -> firstTagLe b a -> firstKey a = firstKey b.
Proof.
  unfold firstTagLe, firstKey.
  destruct (moduleFiles a), (moduleFiles b); try contradiction.
  apply tagLe_antisym.
Qed.

(** Modules with different tags: their order in the bundle does not
    matter to the module-level sort. *)
Lemma sort_byTagName_Permutation l l' :
  Permutation l l' -> NoDup (map tagOf l) ->
  sort byTagName l = sort byTagName l'.
Proof.
  intros Hp Hnd.
  apply (StronglySorted_unique tagLe).
  - intros a b Ha Hb Hab Hba.
    apply (proj1 (sort_In byTagName a l)) in Ha.
    apply (proj1 (sort_In byTagName b l)) in Hb.
    apply (NoDup_map_inj tagOf l); trivial. now apply tagLe_antisym.
  - apply sort_byTagName_ascending.
  - apply sort_byTagName_ascending.
  - eapply Permutation_trans; [apply sort_Permutation|].
    eapply Permutation_trans; [exact Hp|].
    apply Permutation_sym, sort_Permutation.
Qed.

Lemma sortModuleFiles_sameMembers b b' :
  sameMembers b b' -> NoDup (map tagOf (moduleFiles b)) ->
  sortModuleFiles b = sortModuleFiles b'.
Proof.
  intros [Hp Ht] Hnd. unfold sortModuleFiles, setModuleFiles.
  now rewrite (sort_byTagName_Permutation _ _ Hp Hnd), Ht.
Qed.

Lemma sortBundles_StronglySorted bs r :
  sortBundles bs = Return r -> StronglySorted firstTagLe r.
Proof.
  intros Hr. apply sortBundles_returns in Hr. destruct Hr as (_ & Hs & _).
  apply Sorted_StronglySorted; [exact firstTagLe_trans|].
  eapply Sorted_impl; [|exact Hs]. intros a b. apply byFirstTagName_keeps.
Qed.

Lemma sortBundles_Permutation bs bs' :
  Permutation bs bs' ->
  Forall (fun b => moduleFiles b <> []) bs ->
  NoDup (map firstKey (map sortModuleFiles bs)) ->
  sortBundles bs = sortBundles bs'.
Proof.
  intros Hp Hne Hnd.
  assert (Hne' : Forall (fun b => moduleFiles b <> []) bs').
  { apply Forall_forall. intros b Hb. rewrite Forall_forall in Hne.
    apply Hne. eapply Permutation_in; [apply Permutation_sym, Hp | exact Hb]. }
  pose proof (sortBundles_defined bs Hne) as Hr.
  pose proof (sortBundles_defined bs' Hne') as Hr'.
  rewrite Hr, Hr'. f_equal.
  pose proof (sortBundles_returns _ _ Hr) as (Hpr & _).
  pose proof (sortBundles_returns _ _ Hr') as (Hpr' & _).
  apply (StronglySorted_unique firstTagLe).
  - intros a b Ha Hb Hab Hba.
    apply (Permutation_in _ Hpr) in Ha. apply (Permutation_in _ Hpr) in Hb.
    apply (NoDup_map_inj firstKey (map sortModuleFiles bs)); trivial.
    now apply firstTagLe_antisym.
  - now apply (sortBundles_StronglySorted bs).
  - now apply (sortBundles_StronglySorted bs').
  - eapply Permutation_trans; [exact Hpr|].
    eapply Permutation_trans; [|apply Permutation_sym, Hpr'].
    now apply Permutation_map.
Qed.

(** X3. The order in which the bundles are given does not matter:
    when the bundles are non-empty and no two of them would be ordered
    by the same tag name (their smallest), any rearrangement of the
    list is sorted to the same result. *)
Theorem sortBundles_ignores_bundle_order bs bs' :
  Permutation bs bs' ->
  Forall (fun b => moduleFiles b <> []) bs ->
  NoDup (map firstKey (map sortModuleFiles bs)) ->
  sortBundles bs = sortBundles bs'.
Proof. exact (sortBundles_Permutation bs bs'). Qed.

Lemma sortBundles_sameMembers bs bs' :
  Forall2 sameMembers bs bs' ->
  Forall (fun b => NoDup (map tagOf (moduleFiles b))) bs ->
  sortBundles bs = sortBundles bs'.
Proof.
  intros H2 Hnd. unfold sortBundles. f_equal.
  induction H2 as [|b b' l l' Hb Hl IH]; simpl; [reflexivity|].
  inversion Hnd; subst. f_equal; [|now apply IH].
  now apply sortModuleFiles_sameMembers.
Qed.

(** X4. The order of the modules inside the bundles does not matter
    either: two lists of bundles that agree bundle by bundle up to the
    order of the modules, the modules of a bundle having different
    tags, are sorted to the same result. *)
Theorem sortBundles_ignores_module_order bs bs' :
  Forall2 sameMembers bs bs' ->
  Forall (fun b => NoDup (map tagOf (moduleFiles b))) bs ->
  sortBundles bs = sortBundles bs'.
Proof. exact (sortBundles_sameMembers bs bs'). Qed.

(** ** Encapsulation classifier, continued *)

Lemma filter_Permutation {A} (f : A -> bool) l l' :
  Permutation l l' -> Permutation (filter f l) (filter f l').
Proof.
  induction 1 as [|x l l' Hp IH|x y l|l l' l'' H1 IH1 H2 IH2]; simpl.
  - constructor.
  - destruct (f x); [now constructor | exact IH].
  - destruct (f x), (f y); try apply Permutation_refl. apply perm_swap.
  - eapply Permutation_trans; eassumption.
Qed.

Lemma firstEnc_mode (test : ModuleFile -> bool) (w : EncapsulationMode) l :
  (forall m, test m = mode_eqb (modeOf (encOf m)) w) ->
  option_map modeOf (firstEnc (filter test l)) =
    if isEmpty (filter test l) then None else Some w.
Proof.
  intros Ht. destruct (filter test l) as [|m0 r] eqn:E; simpl; [reflexivity|].
  apply filter_first in E as [_ Hm0]. rewrite Ht in Hm0.
  apply mode_eqb_eq in Hm0. now rewrite Hm0.
Qed.

Lemma isEmpty_length {A} (l l' : list A) :
  List.length l = List.length l' -> isEmpty l = isEmpty l'.
Proof. destruct l, l'; simpl; congruence. Qed.

Lemma findPrimaryEncapsulation_mode_Permutation l l' :
  Permutation l l' ->
  option_map modeOf (findPrimaryEncapsulation l) =
    option_map modeOf (findPrimaryEncapsulation l').
Proof.
  intros Hp. rewrite !findPrimaryEncapsulation_table. cbv zeta.
  pose proof (Permutation_length (filter_Permutation isPlainCss _ _ Hp)) as Hpl.
  pose proof (Permutation_length (filter_Permutation isScopedCss _ _ Hp)) as Hsc.
  pose proof (Permutation_length (filter_Permutation isShadowDom _ _ Hp)) as Hsh.
  rewrite <- Hpl, <- Hsc, <- Hsh.
  destruct (_ && _).
  - rewrite !(firstEnc_mode isPlainCss ModeNone) by apply isPlainCss_mode.
    now rewrite (isEmpty_length _ _ Hpl).
  - destruct (_ <=? _)%nat.
    + rewrite !(firstEnc_mode isScopedCss ModeScoped) by apply isScopedCss_mode.
      now rewrite (isEmpty_length _ _ Hsc).
    + rewrite !(firstEnc_mode isShadowDom ModeShadow) by apply isShadowDom_mode.
      now rewrite (isEmpty_length _ _ Hsh).
Qed.

(** X5. The primary mode does not depend on the order of the modules:
    two lists holding the same modules in different orders elect the
    same mode (and both elect none when empty). *)
Theorem findPrimaryEncapsulation_ignores_order l l' :
  Permutation l l' ->
  option_map modeOf (findPrimaryEncapsulation l) =
    option_map modeOf (findPrimaryEncapsulation l').
Proof. exact (findPrimaryEncapsulation_mode_Permutation l l'). Qed.

(** ** Bundle validator, continued *)

Lemma filter_all {A} (f : A -> bool) l :
  (forall a, In a l -> f a = true) -> filter f l = l.
Proof.
  induction l as [|a l IH]; simpl; intros H; [reflexivity|].
  rewrite (H a (or_introl eq_refl)). f_equal. apply IH. intros; apply H; now right.
Qed.

Lemma filter_none {A} (f : A -> bool) l :
  (forall a, In a l -> f a = false) -> filter f l = [].
Proof.
  induction l as [|a l IH]; simpl; intros H; [reflexivity|].
  rewrite (H a (or_introl eq_refl)). apply IH. intros; apply H; now right.
Qed.

Lemma setModuleFiles_same b : setModuleFiles b (moduleFiles b) = b.
Proof. now destruct b. Qed.

(** A bundle whose modules all pass the primary test is emitted as it
    is. *)
Lemma emitted_all_primary b :
  moduleFiles b <> [] ->
  (forall m, In m (moduleFiles b) ->
             inPrimary (findPrimaryEncapsulation (moduleFiles b)) m = true) ->
  emitted b = [b].
Proof.
  intros Hne Hall. unfold emitted.
  destruct (moduleFiles b) as [|m1 [|m2 l]] eqn:E; [congruence | reflexivity|].
  cbv zeta. rewrite (filter_all _ _ Hall).
  rewrite !filter_none.
  - simpl. now rewrite <- E, setModuleFiles_same.
  - intros m Hm. unfold toPlain. now rewrite (Hall m Hm).
  - intros m Hm. unfold toShadow. now rewrite (Hall m Hm).
  - intros m Hm. unfold toScoped. now rewrite (Hall m Hm).
Qed.

Lemma emitted_uniform b e :
  moduleFiles b <> [] ->
  (forall m, In m (moduleFiles b) -> encOf m = e) ->
  emitted b = [b].
Proof.
  intros Hne He. apply emitted_all_primary; trivial.
  intros m Hm. destruct (moduleFiles b) as [|m1 l] eqn:E; [contradiction|].
  destruct (findPrimaryEncapsulation_elects m1 l) as (m0 & Hin & -> & _).
  unfold inPrimary, enc_eqb_nullable. apply orb_true_iff. left.
  apply enc_eqb_eq. now rewrite (He m Hm), (He m0 Hin).
Qed.

(** X6. A non-empty bundle whose modules all carry the same
    [encapsulation] value, or none of which declares styles, goes
    through the validator unchanged: the same bundle, the same
    modules in the same order, and no other bundle beside it. *)
Theorem validateManifestBundle_keeps_uniform acc b :
  moduleFiles b <> [] ->
  (exists e, forall m, In m (moduleFiles b) -> encOf m = e) \/
  (forall m, In m (moduleFiles b) -> hasStyles m = false) ->
  validateManifestBundle acc b = acc ++ [b].
Proof.
  intros Hne H. rewrite validateManifestBundle_emitted. f_equal.
  destruct H as [[e He]|Hs].
  - now apply (emitted_uniform b e).
  - apply emitted_all_primary; trivial. intros m Hm.
    unfold inPrimary. rewrite (Hs m Hm). apply orb_true_r.
Qed.

Lemma filter_filter_length {A} (f g : A -> bool) l :
  List.length (filter f (filter g l)) <= List.length (filter f l).
Proof.
  induction l as [|a l IH]; simpl; [lia|].
  destruct (f a) eqn:Ef, (g a); simpl; rewrite ?Ef; simpl; lia.
Qed.

Lemma filter_filter_kept {A} (f g : A -> bool) l :
  (forall a, In a l -> f a = true -> g a = true) ->
  filter f (filter g l) = filter f l.
Proof.
  induction l as [|a l IH]; simpl; intros H; [reflexivity|].
  assert (IH' : filter f (filter g l) = filter f l)
    by (apply IH; intros; apply H; auto).
  destruct (g a) eqn:Eg, (f a) eqn:Ef; simpl; rewrite ?Ef, IH'; trivial.
  rewrite (H a (or_introl eq_refl) Ef) in Eg. discriminate.
Qed.

Lemma classified_plain m l :
  classified l -> In m l -> isPlainCss m = true ->
  encOf m = Some NoEncapsulation.
Proof.
  intros Hc Hin Hp. rewrite isPlainCss_mode in Hp. apply mode_eqb_eq in Hp.
  specialize (Hc m Hin). destruct (encOf m) as [[]|]; simpl in Hp;
    congruence.
Qed.

Lemma classified_filter (f : ModuleFile -> bool) l :
  classified l -> classified (filter f l).
Proof. intros Hc m Hm. apply filter_In in Hm as [Hm _]. now apply Hc. Qed.

Lemma firstEnc_plain_classified ms :
  classified ms -> 0 < List.length (filter isPlainCss ms) ->
  firstEnc (filter isPlainCss ms) = Some (Some NoEncapsulation).
Proof.
  intros Hc Hlen. destruct (filter isPlainCss ms) as [|m0 r] eqn:E;
    [simpl in Hlen; lia|].
  apply filter_first in E as [Hin Hm0]. simpl.
  now rewrite (classified_plain m0 ms Hc Hin Hm0).
Qed.

Lemma firstEnc_scoped ms :
  0 < List.length (filter isScopedCss ms) ->
  firstEnc (filter isScopedCss ms) = Some (Some ScopedCss).
Proof.
  intros Hlen. destruct (filter isScopedCss ms) as [|m0 r] eqn:E;
    [simpl in Hlen; lia|].
  apply filter_first in E as [_ Hm0]. simpl.
  unfold isScopedCss in Hm0. apply enc_eqb_eq in Hm0. now rewrite Hm0.
Qed.

Lemma firstEnc_shadow ms :
  0 < List.length (filter isShadowDom ms) ->
  firstEnc (filter isShadowDom ms) = Some (Some ShadowDom).
Proof.
  intros Hlen. destruct (filter isShadowDom ms) as [|m0 r] eqn:E;
    [simpl in Hlen; lia|].
  apply filter_first in E as [_ Hm0]. simpl.
  unfold isShadowDom in Hm0. apply enc_eqb_eq in Hm0. now rewrite Hm0.
Qed.

(** Electing again among the primary group gives the same value, the
    modules all having their [encapsulation] set. *)
Lemma findPrimaryEncapsulation_primary_group ms :
  classified ms ->
  findPrimaryEncapsulation
    (filter (inPrimary (findPrimaryEncapsulation ms)) ms) =
  findPrimaryEncapsulation ms.
Proof.
  intros Hc. destruct ms as [|m l]; [reflexivity|].
  remember (m :: l) as ms eqn:Ems.
  remember (findPrimaryEncapsulation ms) as p eqn:Hp.
  assert (Hlen : 0 < List.length ms) by (subst ms; simpl; lia).
  pose proof (votes_total ms) as Htot.
  rewrite votes_plain, votes_scoped, votes_shadow in Htot.
  rewrite findPrimaryEncapsulation_table in Hp. cbv zeta in Hp.
  rewrite findPrimaryEncapsulation_table. cbv zeta.
  pose proof (filter_filter_length isPlainCss (inPrimary p) ms) as Lp.
  pose proof (filter_filter_length isScopedCss (inPrimary p) ms) as Ls.
  pose proof (filter_filter_length isShadowDom (inPrimary p) ms) as Lh.
  destruct (Nat.leb_spec (List.length (filter isScopedCss ms))
              (List.length (filter isPlainCss ms))) as [H1|H1];
    [destruct (Nat.leb_spec (List.length (filter isShadowDom ms))
                 (List.length (filter isPlainCss ms))) as [H2|H2]|];
    simpl andb in Hp; cbv iota in Hp.
  - (* plain *)
    assert (Hpv : p = Some (Some NoEncapsulation))
      by (rewrite Hp; apply firstEnc_plain_classified; [exact Hc | lia]).
    assert (K : filter isPlainCss (filter (inPrimary p) ms) =
                filter isPlainCss ms).
    { apply filter_filter_kept. intros a Ha Hpa.
      unfold inPrimary. rewrite Hpv. simpl.
      now rewrite (classified_plain a ms Hc Ha Hpa). }
    rewrite K.
    replace ((_ <=? _)%nat && (_ <=? _)%nat) with true
      by (symmetry; apply andb_true_intro; split; apply Nat.leb_le; lia).
    now symmetry.
  - (* shadow, over plain *)
    destruct (Nat.leb_spec (List.length (filter isShadowDom ms))
                (List.length (filter isScopedCss ms))) as [H3|H3]; [lia|].
    assert (Hpv : p = Some (Some ShadowDom))
      by (rewrite Hp; apply firstEnc_shadow; lia).
    assert (K : filter isShadowDom (filter (inPrimary p) ms) =
                filter isShadowDom ms).
    { apply filter_filter_kept. intros a Ha Hpa.
      unfold inPrimary. rewrite Hpv. simpl. unfold isShadowDom in Hpa.
      now rewrite Hpa. }
    rewrite K.
    replace (List.length (filter isShadowDom ms) <=?
             List.length (filter isPlainCss (filter (inPrimary p) ms)))%nat
      with false by (symmetry; apply Nat.leb_gt; lia).
    rewrite andb_false_r.
    replace (List.length (filter isShadowDom ms) <=?
             List.length (filter isScopedCss (filter (inPrimary p) ms)))%nat
      with false by (symmetry; apply Nat.leb_gt; lia).
    now symmetry.
  - (* scoped or shadow, plain behind scoped *)
    destruct (Nat.leb_spec (List.length (filter isShadowDom ms))
                (List.length (filter isScopedCss ms))) as [H3|H3].
    + assert (Hpv : p = Some (Some ScopedCss))
        by (rewrite Hp; apply firstEnc_scoped; lia).
      assert (K : filter isScopedCss (filter (inPrimary p) ms) =
                  filter isScopedCss ms).
      { apply filter_filter_kept. intros a Ha Hpa.
        unfold inPrimary. rewrite Hpv. simpl. unfold isScopedCss in Hpa.
        now rewrite Hpa. }
      rewrite K.
      replace (List.length (filter isScopedCss ms) <=?
               List.length (filter isPlainCss (filter (inPrimary p) ms)))%nat
        with false by (symmetry; apply Nat.leb_gt; lia).
      simpl andb. cbv iota.
      replace (List.length (filter isShadowDom (filter (inPrimary p) ms)) <=?
               List.length (filter isScopedCss ms))%nat
        with true by (symmetry; apply Nat.leb_le; lia).
      now symmetry.
    + assert (Hpv : p = Some (Some ShadowDom))
        by (rewrite Hp; apply firstEnc_shadow; lia).
      assert (K : filter isShadowDom (filter (inPrimary p) ms) =
                  filter isShadowDom ms).
      { apply filter_filter_kept. intros a Ha Hpa.
        unfold inPrimary. rewrite Hpv. simpl. unfold isShadowDom in Hpa.
        now rewrite Hpa. }
      rewrite K.
      replace (List.length (filter isShadowDom ms) <=?
               List.length (filter isPlainCss (filter (inPrimary p) ms)))%nat
        with false by (symmetry; apply Nat.leb_gt; lia).
      rewrite andb_false_r.
      replace (List.length (filter isShadowDom ms) <=?
               List.length (filter isScopedCss (filter (inPrimary p) ms)))%nat
        with false by (symmetry; apply Nat.leb_gt; lia).
      now symmetry.
Qed.

Lemma inPrimary_filter_all p ms :
  forall m, In m (filter (inPrimary p) ms) -> inPrimary p m = true.
Proof. intros m Hm. now apply filter_In in Hm. Qed.

Lemma newBundle_fixed l e :
  (forall m, In m l -> encOf m = e) ->
  Forall (fun b => emitted b = [b]) (newBundle l).
Proof.
  intros He. destruct l as [|x r] eqn:E; simpl; constructor; [|constructor].
  apply (emitted_uniform _ e); [discriminate | exact He].
Qed.

(** What the validator emits, it would emit again unchanged. *)
Lemma emitted_fixed b :
  classified (moduleFiles b) -> Forall (fun b' => emitted b' = [b']) (emitted b).
Proof.
  intros Hc. unfold emitted at 2.
  destruct (moduleFiles b) as [|m1 [|m2 l]] eqn:E.
  - constructor.
  - constructor; [|constructor]. unfold emitted. now rewrite E.
  - cbv zeta. set (ms := m1 :: m2 :: l) in *.
    set (p := findPrimaryEncapsulation ms).
    constructor; [|repeat (apply Forall_app; split)].
    + apply emitted_all_primary; cbn [setModuleFiles moduleFiles].
      * apply primary_group_inhabited.
      * subst p. rewrite (findPrimaryEncapsulation_primary_group ms Hc).
        apply inPrimary_filter_all.
    + apply (newBundle_fixed _ (Some ScopedCss)). intros m Hm.
      apply filter_In in Hm as [_ Hm]. eapply toScoped_mode, Hm.
    + apply (newBundle_fixed _ (Some ShadowDom)). intros m Hm.
      apply filter_In in Hm as [_ Hm]. eapply toShadow_mode, Hm.
    + apply (newBundle_fixed _ (Some NoEncapsulation)). intros m Hm.
      apply filter_In in Hm as [Hin Hm]. apply toPlain_mode in Hm.
      specialize (Hc m Hin). destruct (encOf m) as [[]|]; simpl in Hm;
        congruence.
Qed.

Lemma flat_map_fixed {A} (f : A -> list A) l :
  Forall (fun a => f a = [a]) l -> flat_map f l = l.
Proof. induction 1 as [|a l Ha Hl IH]; simpl; [reflexivity|]. now rewrite Ha, IH. Qed.

(** X7. Validation is stable: validating the validator's own output
    changes nothing, the modules all having their [encapsulation]
    set. *)
Theorem validateBundleModules_idempotent bs :
  Forall (fun b => classified (moduleFiles b)) bs ->
  validateBundleModules (validateBundleModules bs) = validateBundleModules bs.
Proof.
  intros Hc. rewrite !validateBundleModules_emitted.
  apply flat_map_fixed.
  induction Hc as [|b l Hb Hl IH]; simpl; [constructor|].
  apply Forall_app. split; [now apply emitted_fixed | exact IH].
Qed.

Lemma newBundle_length l : List.length (newBundle l) <= 1.
Proof. destruct l; simpl; lia. Qed.

Lemma emitted_length b :
  moduleFiles b <> [] ->
  1 <= List.length (emitted b) <= 4.
Proof.
  intros Hne. unfold emitted.
  destruct (moduleFiles b) as [|m1 [|m2 l]]; [congruence | simpl; lia|].
  cbv zeta. rewrite !length_app.
  pose proof (newBundle_length (filter (toScoped (findPrimaryEncapsulation
    (m1 :: m2 :: l))) (m1 :: m2 :: l))).
  pose proof (newBundle_length (filter (toShadow (findPrimaryEncapsulation
    (m1 :: m2 :: l))) (m1 :: m2 :: l))).
  pose proof (newBundle_length (filter (toPlain (findPrimaryEncapsulation
    (m1 :: m2 :: l))) (m1 :: m2 :: l))).
  cbn [List.length]. lia.
Qed.

(** With every [encapsulation] set, the overflow group of the primary
    mode itself stays empty. *)
Lemma emitted_length_classified b :
  classified (moduleFiles b) -> List.length (emitted b) <= 3.
Proof.
  intros Hc. unfold emitted.
  destruct (moduleFiles b) as [|m1 [|m2 l]] eqn:E; [simpl; lia..|].
  cbv zeta. set (ms := m1 :: m2 :: l) in *.
  destruct (findPrimaryEncapsulation_elects m1 (m2 :: l)) as (m0 & Hin & Hp & _).
  fold ms in Hin, Hp. rewrite Hp. rewrite !length_app.
  pose proof (newBundle_length (filter (toScoped (Some (encOf m0))) ms)) as B1.
  pose proof (newBundle_length (filter (toShadow (Some (encOf m0))) ms)) as B2.
  pose proof (newBundle_length (filter (toPlain (Some (encOf m0))) ms)) as B3.
  cbn [List.length].
  pose proof (Hc m0 Hin) as H0.
  assert (Z0 : List.length (newBundle (@nil ModuleFile)) = 0) by reflexivity.
  destruct (encOf m0) as [[]|] eqn:E0; [| | |congruence].
  - (* none: no plain overflow *)
    assert (N : filter (toPlain (Some (Some NoEncapsulation))) ms = []).
    { apply filter_none. intros m Hm.
      destruct (toPlain (Some (Some NoEncapsulation)) m) eqn:Ht; trivial.
      pose proof (toPlain_mode _ _ Ht) as Hmode.
      unfold toPlain, inPrimary, enc_eqb_nullable in Ht.
      specialize (Hc m Hm). destruct (encOf m) as [[]|]; simpl in *;
        congruence. }
    rewrite N in *. lia.
  - (* shadow: no shadow overflow *)
    assert (N : filter (toShadow (Some (Some ShadowDom))) ms = []).
    { apply filter_none. intros m Hm.
      unfold toShadow, inPrimary, enc_eqb_nullable, isShadowDom.
      destruct (enc_eqb (encOf m) (Some ShadowDom)); simpl;
        now rewrite ?andb_false_r. }
    rewrite N in *. lia.
  - (* scoped: no scoped overflow *)
    assert (N : filter (toScoped (Some (Some ScopedCss))) ms = []).
    { apply filter_none. intros m Hm.
      unfold toScoped, inPrimary, enc_eqb_nullable, isScopedCss.
      destruct (enc_eqb (encOf m) (Some ScopedCss)); simpl;
        now rewrite ?andb_false_r. }
    rewrite N in *. lia.
Qed.

(** X8. A non-empty bundle is turned into at least one and at most
    four bundles, and into at most three when its modules all have
    their [encapsulation] set: the validator's output grows by that
    many entries. *)
Theorem validateManifestBundle_growth acc b :
  moduleFiles b <> [] ->
  List.length acc + 1 <= List.length (validateManifestBundle acc b)
    <= List.length acc + 4 /\
  (classified (moduleFiles b) ->
   List.length (validateManifestBundle acc b) <= List.length acc + 3).
Proof.
  intros Hne. rewrite validateManifestBundle_emitted, length_app.
  pose proof (emitted_length b Hne). split; [lia|].
  intros Hc. pose proof (emitted_length_classified b Hc). lia.
Qed.

(** X9. Bundles are validated one by one, each on its own: the
    validated output of two lists put end to end is the validated
    output of the first followed by that of the second. *)
Theorem validateBundleModules_app bs1 bs2 :
  validateBundleModules (bs1 ++ bs2) =
    validateBundleModules bs1 ++ validateBundleModules bs2.
Proof.
  rewrite !validateBundleModules_emitted. apply flat_map_app.
Qed.

(** ** Tag resolver, continued *)

Lemma findModule_In ms tag m : findModule ms tag = Some m -> In m ms.
Proof. unfold findModule. intros H. now apply find_some in H. Qed.

Lemma resolved_In ms tags m :
  In m (resolved ms tags) ->
  exists tag, In tag tags /\ findModule ms tag = Some m.
Proof.
  unfold resolved. intros H. apply in_flat_map in H.
  destruct H as (tag & Ht & Hm). exists tag. split; trivial.
  destruct (findModule ms tag) as [m'|]; [|contradiction].
  destruct Hm as [<-|[]]. reflexivity.
Qed.

Lemma newBundle_In l b : In b (newBundle l) -> moduleFiles b = l.
Proof. destruct l; simpl; [contradiction|]. now intros [<-|[]]. Qed.

(** X10. A bundle of the resolver only holds known modules under
    declared tags: each of its modules belongs to the module list, is
    the first module of that list carrying its tag (the list splits
    around it, and no module before it has its tag name, so a later
    module with the same tag is never bundled in its place), is what
    the lookup returns for its tag, and its tag is listed by a
    declaration. *)
Theorem getManifestBundles_bundles_known_modules ms bs ds b m :
  In b (fst (getManifestBundles ms bs ds)) -> In m (moduleFiles b) ->
  In m ms /\
  (exists l1 l2,
      ms = l1 ++ m :: l2 /\ forall x, In x l1 -> tagOf x <> tagOf m) /\
  findModule ms (tagOf m) = Some m /\
  In (tagOf m) (flat_map componentsOf bs).
Proof.
  rewrite getManifestBundles_eq. cbn [fst]. intros Hb Hm.
  apply in_flat_map in Hb. destruct Hb as (d & Hd & Hb).
  apply newBundle_In in Hb. rewrite Hb in Hm.
  apply resolved_In in Hm. destruct Hm as (tag & Htag & Hf).
  pose proof (findModule_tag ms tag m Hf) as Et. rewrite Et.
  split; [now apply findModule_In in Hf|]. split; [|split; [exact Hf|]].
  - destruct (findModule_first ms tag m Hf) as (l1 & l2 & E & _ & Hn).
    exists l1, l2. split; [exact E | exact Hn].
  - apply in_flat_map. eauto.
Qed.

Lemma resolved_missing_length ms tags :
  List.length (resolved ms tags) + List.length (missing ms tags) =
    List.length tags.
Proof.
  unfold resolved, missing, matches.
  induction tags as [|t l IH]; simpl; [reflexivity|].
  destruct (findModule ms t); simpl; lia.
Qed.

(** X11. Every declared tag is accounted for once: the number of
    modules in the resolver's bundles plus the number of diagnostics it
    appends is the number of tags in the declarations. *)
Theorem getManifestBundles_accounts_for_every_tag ms bs ds :
  totalModules (fst (getManifestBundles ms bs ds)) +
    (List.length (snd (getManifestBundles ms bs ds)) - List.length ds) =
  List.length (flat_map componentsOf bs).
Proof.
  rewrite getManifestBundles_eq. cbn [fst snd].
  rewrite totalModules_length, allModules_newBundles, length_app.
  replace (List.length ds + _ - List.length ds)
    with (List.length (flat_map (fun b => map missingTagDiagnostic
            (missing ms (componentsOf b))) bs)) by lia.
  induction bs as [|b l IH]; simpl; [reflexivity|].
  rewrite !length_app, length_map.
  pose proof (resolved_missing_length ms (componentsOf b)). lia.
Qed.

(** X12. Declarations are resolved one after the other, each on its
    own: resolving two lists of declarations put end to end gives the
    bundles of the first followed by those of the second, the second
    being resolved with the diagnostics the first has left. *)
Theorem getManifestBundles_app ms bs1 bs2 ds :
  getManifestBundles ms (bs1 ++ bs2) ds =
    (fst (getManifestBundles ms bs1 ds) ++
       fst (getManifestBundles ms bs2 (snd (getManifestBundles ms bs1 ds))),
     snd (getManifestBundles ms bs2 (snd (getManifestBundles ms bs1 ds)))).
Proof.
  rewrite !getManifestBundles_eq. cbn [fst snd].
  now rewrite !flat_map_app, app_assoc.
Qed.

(** ** The three steps together *)

(** X13. Resolving, validating and sorting always go through. The
    bundles that come out are non-empty with their styled modules of
    one mode, each has its modules in ascending order of tag, they
    are in ascending order of first tag, and together they hold
    exactly the modules found for the declared tags: none lost, none
    added. *)
Theorem resolve_validate_sort ms bs ds :
  exists r,
    sortBundles
      (validateBundleModules (fst (getManifestBundles ms bs ds))) = Return r /\
    Forall consistent r /\
    Forall (fun b => StronglySorted tagLe (moduleFiles b)) r /\
    StronglySorted firstTagLe r /\
    Permutation (allModules r)
      (flat_map (fun b => resolved ms (componentsOf b)) bs).
Proof.
  set (pre := fst (getManifestBundles ms bs ds)).
  assert (Hv : Forall (fun b => moduleFiles b <> []) (validateBundleModules pre)).
  { eapply Forall_impl; [|apply validated_consistent]. now intros b [H _]. }
  pose proof (sortBundles_defined _ Hv) as Hr.
  eexists. split; [exact Hr|].
  pose proof (sortBundles_returns _ _ Hr) as (Hp & _ & _).
  split; [|split; [|split]].
  - apply Forall_forall. intros b Hb.
    apply (Permutation_in _ Hp) in Hb. apply in_map_iff in Hb.
    destruct Hb as (b0 & <- & Hb0).
    apply consistent_sortModuleFiles.
    pose proof (validated_consistent pre) as Hc.
    rewrite Forall_forall in Hc. now apply Hc.
  - apply Forall_forall. intros b Hb.
    apply (Permutation_in _ Hp) in Hb. apply in_map_iff in Hb.
    destruct Hb as (b0 & <- & _). apply sort_byTagName_ascending.
  - now apply (sortBundles_StronglySorted (validateBundleModules pre)).
  - eapply Permutation_trans;
      [unfold allModules; apply Permutation_flat_map, Hp|].
    eapply Permutation_trans; [apply allModules_sortModuleFiles|].
    eapply Permutation_trans; [apply validated_Permutation|].
    subst pre. rewrite getManifestBundles_eq. cbn [fst].
    rewrite allModules_newBundles. apply Permutation_refl.
Qed.

(** ** Orchestrator, continued *)

Section OrchestratorHandover.

Variable upgradeDependentComponents : Collaborator.
Variable bundleStylesAndModules : Collaborator.
Variable generateBundles : Collaborator.

Lemma prepared_is_sorted c :
  sortBundles
    (validateBundleModules
       (fst (getManifestBundles (modulesFiles (manifest c))
               (bundles (manifest c)) (diagnostics c)))) =
    Return (prepared c).
Proof.
  apply sortBundles_defined.
  eapply Forall_impl; [|apply validated_consistent]. now intros b [H _].
Qed.

(** The statements under [try], up to the first collaborator, never
    throw: they leave the prepared bundles in the context and hand
    them to the collaborators. *)
Lemma bundleBody_handover config w :
  bundleBody upgradeDependentComponents bundleStylesAndModules
    generateBundles config w =
    (upgradeDependentComponents config (prepared (ctx w)) ;;;
     c <~ getCtx ;;
     bundleStylesAndModules config (manifestBundles c) ;;;
     c <~ getCtx ;;
     generateBundles config (manifestBundles c)) (handedOver w).
Proof.
  unfold bundleBody, handedOver.
  unfold Build.bind at 1. unfold getCtx at 1.
  destruct (getManifestBundles _ _ _) as [mbs diags] eqn:Eg.
  unfold Build.bind at 1. unfold putCtx at 1.
  unfold Build.bind at 1. unfold getCtx at 1. cbn [ctx logged].
  unfold Build.bind at 1. unfold putCtx at 1.
  unfold Build.bind at 1. unfold getCtx at 1. cbn [ctx logged].
  unfold Build.bind at 1. unfold lift at 1.
  cbn [setManifestBundles setDiagnostics manifestBundles diagnostics manifest].
  pose proof (prepared_is_sorted (ctx w)) as Hs. rewrite Eg in Hs.
  cbn [fst] in Hs. rewrite Hs.
  unfold Build.bind at 1. unfold putCtx at 1.
  unfold Build.bind at 1. unfold getCtx at 1. cbn [ctx logged].
  cbn [setManifestBundles setDiagnostics manifestBundles diagnostics manifest].
  unfold Build.bind at 1. cbn [snd]. reflexivity.
Qed.

End OrchestratorHandover.

(** X14. Under [try] the first collaborator is always reached,
    whatever the manifest: resolving, validating and sorting do not
    throw, missing tags included. It is called with the prepared
    bundles, in a context that holds these bundles and the diagnostics
    of the missing tags after the earlier ones; the collaborators
    after it are given the bundles the context holds when their turn
    comes. *)
Theorem bundle_hands_prepared_bundles_over
    (upgradeDependentComponents bundleStylesAndModules generateBundles
       : Collaborator) (config : BuildConfig) (w : World) :
  sortBundles
    (validateBundleModules
       (fst (getManifestBundles (modulesFiles (manifest (ctx w)))
               (bundles (manifest (ctx w))) (diagnostics (ctx w))))) =
    Return (prepared (ctx w)) /\
  diagnostics (ctx (handedOver w)) =
    diagnostics (ctx w) ++
      missingDiagnostics (modulesFiles (manifest (ctx w)))
        (bundles (manifest (ctx w))) /\
  bundleBody upgradeDependentComponents bundleStylesAndModules
    generateBundles config w =
    (upgradeDependentComponents config (prepared (ctx w)) ;;;
     c <~ getCtx ;;
     bundleStylesAndModules config (manifestBundles c) ;;;
     c <~ getCtx ;;
     generateBundles config (manifestBundles c)) (handedOver w).
Proof.
  split; [apply prepared_is_sorted|]. split; [|apply bundleBody_handover].
  unfold handedOver. cbn [ctx diagnostics].
  rewrite getManifestBundles_eq. cbn [snd]. f_equal.
  unfold missingDiagnostics.
  induction (bundles (manifest (ctx w))) as [|b l IH]; simpl; [reflexivity|].
  now rewrite map_app, IH.
Qed.

(** X15. The first collaborator that throws ends the statements under
    [try]: when upgrading the dependent components throws, the
    bundlers and the generation of the bundles are not run, and when
    it returns and the bundlers throw, the generation is not run. The
    exception and the world are those the failing collaborator left. *)
Theorem bundleBody_stops_at_first_failure
    (upgradeDependentComponents bundleStylesAndModules generateBundles
       : Collaborator) (config : BuildConfig) (w : World) :
  (forall e w',
      upgradeDependentComponents config (prepared (ctx w)) (handedOver w) =
        (Throw e, w') ->
      bundleBody upgradeDependentComponents bundleStylesAndModules
        generateBundles config w = (Throw e, w')) /\
  (forall w1 e w2,
      upgradeDependentComponents config (prepared (ctx w)) (handedOver w) =
        (Return tt, w1) ->
      bundleStylesAndModules config (manifestBundles (ctx w1)) w1 =
        (Throw e, w2) ->
      bundleBody upgradeDependentComponents bundleStylesAndModules
        generateBundles config w = (Throw e, w2)).
Proof.
  split.
  - intros e w' Hup. rewrite bundleBody_handover.
    unfold Build.bind at 1. now rewrite Hup.
  - intros w1 e w2 Hup Hboth. rewrite bundleBody_handover.
    unfold Build.bind at 1. rewrite Hup.
    unfold Build.bind at 1. unfold getCtx at 1.
    unfold Build.bind at 1. now rewrite Hboth.
Qed.

(** ** Independence of the declaration order *)

Lemma findPrimaryEncapsulation_Permutation l l' :
  Permutation l l' -> classified l ->
  findPrimaryEncapsulation l = findPrimaryEncapsulation l'.
Proof.
  intros Hp Hc.
  pose proof (findPrimaryEncapsulation_mode_Permutation l l' Hp) as Hm.
  destruct l as [|m r].
  - apply Permutation_nil in Hp. now subst.
  - destruct l' as [|m' r'].
    + apply Permutation_sym, Permutation_nil in Hp. discriminate.
    + destruct (findPrimaryEncapsulation_elects m r) as (m0 & Hin & E & _).
      destruct (findPrimaryEncapsulation_elects m' r') as (m0' & Hin' & E' & _).
      rewrite E, E' in *. simpl in Hm. f_equal.
      apply (Permutation_in _ (Permutation_sym Hp)) in Hin'.
      pose proof (Hc m0 Hin) as H0. pose proof (Hc m0' Hin') as H0'.
      destruct (encOf m0) as [x|]; [|congruence].
      destruct (encOf m0') as [x'|]; [|congruence].
      f_equal. apply modeOf_classified_inj. congruence.
Qed.

Lemma newBundle_sameMembers l l' :
  Permutation l l' -> Forall2 sameMembers (newBundle l) (newBundle l').
Proof.
  intros Hp. destruct l as [|x r], l' as [|x' r']; simpl.
  - constructor.
  - apply Permutation_nil in Hp. discriminate.
  - apply Permutation_sym, Permutation_nil in Hp. discriminate.
  - constructor; [|constructor]. split; [exact Hp | reflexivity].
Qed.

(** Reordering the modules of a bundle reorders the modules of the
    bundles it is split into, and nothing else. *)
Lemma emitted_sameMembers b b' :
  sameMembers b b' -> classified (moduleFiles b) ->
  Forall2 sameMembers (emitted b) (emitted b').
Proof.
  intros [Hp Ht] Hc. unfold emitted.
  pose proof (Permutation_length Hp) as Hlen.
  pose proof (findPrimaryEncapsulation_Permutation _ _ Hp Hc) as Hprim.
  destruct (moduleFiles b) as [|m1 [|m2 l]] eqn:E,
           (moduleFiles b') as [|m1' [|m2' l']] eqn:E';
    simpl in Hlen; try discriminate.
  - constructor.
  - constructor; [|constructor]. unfold sameMembers. now rewrite E, E'.
  - cbv zeta. rewrite <- Hprim.
    apply Forall2_app; [|apply Forall2_app; [|apply Forall2_app]];
      try (apply newBundle_sameMembers; now apply filter_Permutation).
    constructor; [|constructor].
    split; [|exact Ht]. cbn [setModuleFiles moduleFiles].
    now apply filter_Permutation.
Qed.

Lemma NoDup_map_filter {A B} (f : A -> B) (keep : A -> bool) l :
  NoDup (map f l) -> NoDup (map f (filter keep l)).
Proof.
  induction l as [|a l IH]; simpl; intros H; [constructor|].
  inversion H as [|? ? Ha Hl]; subst.
  destruct (keep a); simpl; [|now apply IH].
  constructor; [|now apply IH].
  intros Hin. apply Ha. apply in_map_iff in Hin.
  destruct Hin as (x & Ex & Hx). apply filter_In in Hx as [Hx _].
  rewrite <- Ex. now apply in_map.
Qed.

Lemma newBundle_Forall (P : list ModuleFile -> Prop) l :
  P l -> Forall (fun b => P (moduleFiles b)) (newBundle l).
Proof. intros H. destruct l; simpl; repeat constructor. exact H. Qed.

Lemma emitted_distinct_tags b :
  NoDup (map tagOf (moduleFiles b)) ->
  Forall (fun x => NoDup (map tagOf (moduleFiles x))) (emitted b).
Proof.
  intros Hnd. unfold emitted.
  destruct (moduleFiles b) as [|m1 [|m2 l]] eqn:E.
  - constructor.
  - constructor; [|constructor]. now rewrite E.
  - cbv zeta. constructor; [now apply NoDup_map_filter|].
    repeat (apply Forall_app; split);
      apply (newBundle_Forall (fun l => NoDup (map tagOf l)));
      now apply NoDup_map_filter.
Qed.

(** Validating and sorting do not see the order of the modules inside
    the bundles they are given. *)
Lemma validate_sort_sameMembers bs bs' :
  Forall2 sameMembers bs bs' ->
  Forall (fun b => classified (moduleFiles b)) bs ->
  Forall (fun b => NoDup (map tagOf (moduleFiles b))) bs ->
  sortBundles (validateBundleModules bs) =
    sortBundles (validateBundleModules bs').
Proof.
  intros H2 Hc Hnd. rewrite !validateBundleModules_emitted.
  apply sortBundles_sameMembers.
  - induction H2 as [|b b' l l' Hb Hl IH]; simpl; [constructor|].
    inversion Hc; subst. inversion Hnd; subst.
    apply Forall2_app; [now apply emitted_sameMembers | now apply IH].
  - clear H2. induction bs as [|b l IH]; simpl; [constructor|].
    inversion Hc; subst. inversion Hnd; subst.
    apply Forall_app. split; [now apply emitted_distinct_tags | now apply IH].
Qed.

Lemma resolved_Permutation ms tags tags' :
  Permutation tags tags' -> Permutation (resolved ms tags) (resolved ms tags').
Proof. intros H. unfold resolved. now apply Permutation_flat_map. Qed.

Lemma resolved_classified ms tags :
  classified ms -> classified (resolved ms tags).
Proof.
  intros Hc m Hm. apply resolved_In in Hm. destruct Hm as (t & _ & Hf).
  apply Hc. now apply findModule_In in Hf.
Qed.

Lemma resolved_distinct_tags ms tags :
  NoDup tags -> NoDup (map tagOf (resolved ms tags)).
Proof. intros H. rewrite resolved_tags. now apply NoDup_filter. Qed.

(** X16. The order in which a declaration lists its tags has no
    influence on the prepared bundles: when the modules all have
    their [encapsulation] set and no declaration lists a tag twice,
    declarations that differ only in the order of their tags are
    resolved, validated and sorted to the same list of bundles. *)
Theorem prepared_bundles_ignore_tag_order ms bs bs' ds ds' :
  Forall2 (fun d d' => Permutation (componentsOf d) (componentsOf d')) bs bs' ->
  classified ms ->
  Forall (fun d => NoDup (componentsOf d)) bs ->
  sortBundles (validateBundleModules (fst (getManifestBundles ms bs ds))) =
    sortBundles (validateBundleModules (fst (getManifestBundles ms bs' ds'))).
Proof.
  intros H2 Hc Hnd. rewrite !getManifestBundles_eq. cbn [fst].
  apply validate_sort_sameMembers.
  - induction H2 as [|d d' l l' Hd Hl IH]; simpl; [constructor|].
    inversion Hnd; subst.
    apply Forall2_app; [|now apply IH].
    now apply newBundle_sameMembers, resolved_Permutation.
  - clear H2 Hnd. induction bs as [|d l IH]; simpl; [constructor|].
    apply Forall_app. split; [|exact IH].
    apply (newBundle_Forall classified). now apply resolved_classified.
  - clear H2. induction bs as [|d l IH]; simpl; [constructor|].
    inversion Hnd; subst. apply Forall_app. split; [|now apply IH].
    apply (newBundle_Forall (fun l => NoDup (map tagOf l))).
    now apply resolved_distinct_tags.
Qed.

Lemma firstKey_In b :
  moduleFiles b <> [] -> In (firstKey b) (map tagOf (moduleFiles b)).
Proof.
  unfold firstKey. destruct (moduleFiles b); [congruence|]. intros _. now left.
Qed.

(** Bundles that share no tag are ordered by different tags. *)
Lemma NoDup_firstKey l :
  Forall (fun b => moduleFiles b <> []) l ->
  NoDup (map tagOf (allModules l)) -> NoDup (map firstKey l).
Proof.
  induction 1 as [|b l Hb Hl IH]; simpl; intros Hnd; [constructor|].
  unfold allModules in Hnd. simpl in Hnd. rewrite map_app in Hnd.
  constructor.
  - intros Hin. apply in_map_iff in Hin. destruct Hin as (b2 & E & Hb2).
    rewrite Forall_forall in Hl.
    pose proof (firstKey_In b Hb) as K1.
    pose proof (firstKey_In b2 (Hl b2 Hb2)) as K2. rewrite E in K2.
    apply NoDup_app_remove_l in Hnd as Hr.
    assert (K3 : In (firstKey b) (map tagOf (flat_map moduleFiles l))).
    { apply in_map_iff in K2. destruct K2 as (m & Em & Hm).
      apply in_map_iff. exists m. split; trivial.
      apply in_flat_map. eauto. }
    clear Hr. revert Hnd K1 K3.
    generalize (map tagOf (moduleFiles b)) (map tagOf (flat_map moduleFiles l))
      (firstKey b).
    intros l1 l2 k Hnd K1 K3.
    induction l1 as [|x l1 IH1]; [contradiction|].
    simpl in Hnd. inversion Hnd; subst. destruct K1 as [->|K1].
    + apply H1. apply in_or_app. now right.
    + now apply IH1.
  - apply IH. now apply NoDup_app_remove_l in Hnd.
Qed.

(** X17. The order of the declarations has no influence on the
    prepared bundles either: when no tag is declared twice, the
    declarations taken in any order are resolved, validated and sorted
    to the same list of bundles. *)
Theorem prepared_bundles_ignore_declaration_order ms bs bs' ds ds' :
  Permutation bs bs' ->
  NoDup (flat_map componentsOf bs) ->
  sortBundles (validateBundleModules (fst (getManifestBundles ms bs ds))) =
    sortBundles (validateBundleModules (fst (getManifestBundles ms bs' ds'))).
Proof.
  intros Hp Hnd. rewrite !getManifestBundles_eq. cbn [fst].
  rewrite !validateBundleModules_emitted.
  set (pre := flat_map (fun b => newBundle (resolved ms (componentsOf b)))).
  assert (Hc : Forall consistent (flat_map emitted (pre bs))).
  { rewrite <- validateBundleModules_emitted. apply validated_consistent. }
  assert (Hne : Forall (fun b => moduleFiles b <> []) (flat_map emitted (pre bs))).
  { eapply Forall_impl; [|exact Hc]. now intros b [H _]. }
  apply sortBundles_Permutation.
  - apply Permutation_flat_map. unfold pre. now apply Permutation_flat_map.
  - exact Hne.
  - apply NoDup_firstKey.
    + apply Forall_forall. intros b Hb. apply in_map_iff in Hb.
      destruct Hb as (b0 & <- & Hb0). apply sortModuleFiles_inhabited.
      rewrite Forall_forall in Hne. now apply Hne.
    + assert (Hperm : Permutation
                (allModules (map sortModuleFiles (flat_map emitted (pre bs))))
                (flat_map (fun b => resolved ms (componentsOf b)) bs)).
      { eapply Permutation_trans; [apply allModules_sortModuleFiles|].
        rewrite <- validateBundleModules_emitted.
        eapply Permutation_trans; [apply validated_Permutation|].
        unfold pre. rewrite allModules_newBundles. apply Permutation_refl. }
      eapply Permutation_NoDup;
        [apply Permutation_sym, Permutation_map, Hperm|].
      rewrite resolved_tags_all. now apply NoDup_filter.
Qed.

(* ================================================================== *)
(** ** HTML optimisation *)

Section HydrateFacts.

Import Hydrate.

Context {Document : Type}.

Lemma attempt_returns header (step : Step Document) s :
  fst (attempt Document header step s) = Return tt.
Proof. unfold attempt. now destruct (step s) as [[[]|e] s']. Qed.

Lemma onlyIf_attempt_returns b header (step : Step Document) s :
  fst (onlyIf Document b (attempt Document header step) s) = Return tt.
Proof. destruct b; [apply attempt_returns | reflexivity]. Qed.

Lemma andThen_returns (a b : Step Document) s :
  (forall s, fst (a s) = Return tt) -> (forall s, fst (b s) = Return tt) ->
  fst (andThen Document a b s) = Return tt.
Proof.
  intros Ha Hb. unfold andThen. specialize (Ha s).
  destruct (a s) as [[[]|e] s']; [apply Hb | discriminate].
Qed.

(** The five guarded steps, taken together, never throw. *)
Lemma guarded_steps_return devMode opts (c1 c2 c3 c4 c5 : Step Document) s :
  fst (andThen Document
         (onlyIf Document (notFalse (canonicalLink opts))
            (attempt Document "Insert Canonical Link" c1))
      (andThen Document
         (onlyIf Document (notFalse (inlineStyles opts))
            (attempt Document "Inline Component Styles" c2))
      (andThen Document
         (onlyIf Document (notFalse (inlineLoaderScript opts))
            (attempt Document "Inline Loader Script" c3))
      (andThen Document
         (onlyIf Document (positive (inlineAssetsMaxSize opts))
            (attempt Document "Inline External Styles" c4))
         (onlyIf Document (notFalse (collapseWhitespace opts) && negb devMode)
            (attempt Document "Reduce HTML Whitespace" c5))))) s) = Return tt.
Proof.
  revert s.
  repeat (intro; apply andThen_returns; [intro; apply onlyIf_attempt_returns|]).
  intro. apply onlyIf_attempt_returns.
Qed.

End HydrateFacts.

(** X18. [optimizeHtml] contains the failures of its five
    collaborators: whatever they do and whatever the options, the run
    throws only if the first statement, which sets the attribute on
    the document, throws, and then nothing else is run. *)
Theorem optimizeHtml_contains_failures {Document : Type}
    (setHtmlDataSsrAttr insertCanonicalLink inlineComponentStyles
       inlineLoaderScriptStep inlineExternalAssets collapseHtmlWhitepace
       : Hydrate.Step Document)
    (devMode : bool) (opts : Hydrate.HydrateOptions)
    (s : Hydrate.State Document) :
  match setHtmlDataSsrAttr s with
  | (Throw e, s') =>
      Hydrate.optimizeHtml Document setHtmlDataSsrAttr insertCanonicalLink
        inlineComponentStyles inlineLoaderScriptStep inlineExternalAssets
        collapseHtmlWhitepace devMode opts s = (Throw e, s')
  | (Return _, _) =>
      fst (Hydrate.optimizeHtml Document setHtmlDataSsrAttr
             insertCanonicalLink inlineComponentStyles inlineLoaderScriptStep
             inlineExternalAssets collapseHtmlWhitepace devMode opts s) =
        Return tt
  end.
Proof.
  destruct (setHtmlDataSsrAttr s) as [[[]|e] s'] eqn:E0;
    unfold Hydrate.optimizeHtml; unfold Hydrate.andThen at 1; cbv beta;
    rewrite E0; [|reflexivity].
  apply guarded_steps_return.
Qed.

(** X19. A failing step stops none of the later ones: when the
    attribute is set and each of the five collaborators throws at
    once, every step the options let through is still attempted, and
    each leaves exactly one [error] diagnostic of type [hydrate] with
    its own header and the exception as message, in the order of the
    steps; the document is left as it was. *)
Theorem optimizeHtml_reports_every_failure {Document : Type}
    (setHtmlDataSsrAttr : Hydrate.Step Document)
    (e1 e2 e3 e4 e5 : string)
    (devMode : bool) (opts : Hydrate.HydrateOptions)
    (s s1 : Hydrate.State Document) :
  setHtmlDataSsrAttr s = (Return tt, s1) ->
  Hydrate.optimizeHtml Document setHtmlDataSsrAttr
    (Hydrate.failsWith e1) (Hydrate.failsWith e2) (Hydrate.failsWith e3)
    (Hydrate.failsWith e4) (Hydrate.failsWith e5) devMode opts s =
    (Return tt,
     Hydrate.mkState (Hydrate.doc s1) (Hydrate.buildCtx s1)
       (Hydrate.results s1 ++
          (if Hydrate.notFalse (Hydrate.canonicalLink opts)
           then [Hydrate.hydrateError "Insert Canonical Link" e1] else []) ++
          (if Hydrate.notFalse (Hydrate.inlineStyles opts)
           then [Hydrate.hydrateError "Inline Component Styles" e2] else []) ++
          (if Hydrate.notFalse (Hydrate.inlineLoaderScript opts)
           then [Hydrate.hydrateError "Inline Loader Script" e3] else []) ++
          (if Hydrate.positive (Hydrate.inlineAssetsMaxSize opts)
           then [Hydrate.hydrateError "Inline External Styles" e4] else []) ++
          (if Hydrate.notFalse (Hydrate.collapseWhitespace opts)
              && negb devMode
           then [Hydrate.hydrateError "Reduce HTML Whitespace" e5] else []))).
Proof.
  intros H0. unfold Hydrate.optimizeHtml. unfold Hydrate.andThen at 1.
  cbv beta. rewrite H0. destruct s1 as [d c r].
  unfold Hydrate.andThen, Hydrate.onlyIf, Hydrate.attempt, Hydrate.failsWith,
    Hydrate.pushHydrateError, Hydrate.skip, Hydrate.hydrateError.
  destruct (Hydrate.notFalse (Hydrate.canonicalLink opts)),
           (Hydrate.notFalse (Hydrate.inlineStyles opts)),
           (Hydrate.notFalse (Hydrate.inlineLoaderScript opts)),
           (Hydrate.positive (Hydrate.inlineAssetsMaxSize opts)),
           (Hydrate.notFalse (Hydrate.collapseWhitespace opts) && negb devMode);
    cbn [Hydrate.doc Hydrate.buildCtx Hydrate.results];
    rewrite <- ?app_assoc; rewrite ?app_nil_r; reflexivity.
Qed.

(** X20. [optimizeHtml] adds no diagnostic of its own when nothing
    fails: if the first statement and the collaborators all return
    and leave the diagnostics as they find them, the run returns with
    the diagnostics it started with. *)
Theorem optimizeHtml_quiet_when_nothing_fails {Document : Type}
    (setHtmlDataSsrAttr insertCanonicalLink inlineComponentStyles
       inlineLoaderScriptStep inlineExternalAssets collapseHtmlWhitepace
       : Hydrate.Step Document)
    (devMode : bool) (opts : Hydrate.HydrateOptions)
    (s : Hydrate.State Document) :
  (forall step,
      In step [setHtmlDataSsrAttr; insertCanonicalLink; inlineComponentStyles;
               inlineLoaderScriptStep; inlineExternalAssets;
               collapseHtmlWhitepace] ->
      forall s, fst (step s) = Return tt /\
                Hydrate.results (snd (step s)) = Hydrate.results s) ->
  fst (Hydrate.optimizeHtml Document setHtmlDataSsrAttr insertCanonicalLink
         inlineComponentStyles inlineLoaderScriptStep inlineExternalAssets
         collapseHtmlWhitepace devMode opts s) = Return tt /\
  Hydrate.results
    (snd (Hydrate.optimizeHtml Document setHtmlDataSsrAttr insertCanonicalLink
            inlineComponentStyles inlineLoaderScriptStep inlineExternalAssets
            collapseHtmlWhitepace devMode opts s)) = Hydrate.results s.
Proof.
  intros H.
  assert (Hq : forall step b header,
             In step [setHtmlDataSsrAttr; insertCanonicalLink;
                      inlineComponentStyles; inlineLoaderScriptStep;
                      inlineExternalAssets; collapseHtmlWhitepace] ->
             forall s, fst (Hydrate.onlyIf Document b
                              (Hydrate.attempt Document header step) s) =
                         Return tt /\
                       Hydrate.results
                         (snd (Hydrate.onlyIf Document b
                                 (Hydrate.attempt Document header step) s)) =
                         Hydrate.results s).
  { intros step b header Hin s0. destruct b; [|now split].
    unfold Hydrate.onlyIf, Hydrate.attempt.
    destruct (H step Hin s0) as [Hr Hd].
    destruct (step s0) as [[[]|e] s']; [now split | discriminate]. }
  assert (Hseq : forall a b : Hydrate.Step Document,
             (forall s, fst (a s) = Return tt /\
                        Hydrate.results (snd (a s)) = Hydrate.results s) ->
             (forall s, fst (b s) = Return tt /\
                        Hydrate.results (snd (b s)) = Hydrate.results s) ->
             forall s, fst (Hydrate.andThen Document a b s) = Return tt /\
                       Hydrate.results (snd (Hydrate.andThen Document a b s)) =
                         Hydrate.results s).
  { intros a b Ha Hb s0. unfold Hydrate.andThen.
    destruct (Ha s0) as [Hr Hd]. destruct (a s0) as [[[]|e] s'];
      [|discriminate].
    destruct (Hb s') as [Hr' Hd']. simpl in Hd. split; congruence. }
  unfold Hydrate.optimizeHtml. revert s.
  apply Hseq; [apply H; simpl; auto|].
  repeat (apply Hseq; [apply Hq; simpl; auto 10|]).
  apply Hq; simpl; auto 10.
Qed.

(* ================================================================== *)
(** ** Application file names *)

Lemma js_name_neq_infixed (ns x : string) :
  (ns ++ ".js")%string <> (ns ++ "." ++ x ++ ".js")%string.
Proof.
  intros H. apply append_inv_head in H.
  apply (f_equal String.length) in H. simpl in H.
  rewrite length_append in H. simpl in H. lia.
Qed.

Lemma css_name_neq_infixed (ns x : string) :
  (ns ++ ".css")%string <> (ns ++ "." ++ x ++ ".js")%string.
Proof.
  intros H. apply append_inv_head in H. simpl in H. inversion H as [H1].
  destruct x as [|c x]; simpl in H1; [discriminate|].
  apply (f_equal String.length) in H1. simpl in H1.
  rewrite length_append in H1. simpl in H1. lia.
Qed.

Lemma infixed_inj (ns x y : string) :
  (ns ++ "." ++ x ++ ".js")%string = (ns ++ "." ++ y ++ ".js")%string ->
  x = y.
Proof.
  intros H. apply append_inv_head in H. apply append_inv_head in H.
  now apply append_inv_tail in H.
Qed.

(** X21. Within one configuration the file names do not collide: the
    loader's file name differs from the global script's and from any
    core file name, and the global style sheet's name differs from all
    three; the core file name is the global script's exactly when the
    part it inserts after the namespace (the core id, or the content
    hash when names are hashed) is the global name. *)
Theorem file_names_do_not_collide
    (GLOBAL_NAME : string) (generateContentHash : string -> Z -> string)
    (config : FileNaming.NamingConfig) (coreId jsContent : string) :
  FileNaming.getLoaderFileName config <>
    FileNaming.getGlobalFileName GLOBAL_NAME config /\
  FileNaming.getLoaderFileName config <>
    FileNaming.getCoreFilename generateContentHash config coreId jsContent /\
  FileNaming.getGlobalStyleFilename config <>
    FileNaming.getLoaderFileName config /\
  FileNaming.getGlobalStyleFilename config <>
    FileNaming.getGlobalFileName GLOBAL_NAME config /\
  FileNaming.getGlobalStyleFilename config <>
    FileNaming.getCoreFilename generateContentHash config coreId jsContent /\
  (FileNaming.getCoreFilename generateContentHash config coreId jsContent =
     FileNaming.getGlobalFileName GLOBAL_NAME config <->
   (if FileNaming.hashFileNames config
    then generateContentHash jsContent
           (FileNaming.hashedFileNameLength config)
    else coreId) = GLOBAL_NAME).
Proof.
  unfold FileNaming.getLoaderFileName, FileNaming.getGlobalFileName,
    FileNaming.getCoreFilename, FileNaming.getGlobalStyleFilename.
  repeat split.
  - apply js_name_neq_infixed.
  - destruct (FileNaming.hashFileNames config); apply js_name_neq_infixed.
  - intros H. apply append_inv_head in H. discriminate.
  - apply css_name_neq_infixed.
  - destruct (FileNaming.hashFileNames config); apply css_name_neq_infixed.
  - destruct (FileNaming.hashFileNames config); apply infixed_inj.
  - destruct (FileNaming.hashFileNames config); intros ->; reflexivity.
Qed.

(** X22. Different bundle ids give different bundle file names, and,
    when file names are not hashed, different core ids give different
    core file names; when they are hashed the core file name depends
    on the content alone. *)
Theorem file_names_tell_ids_apart
    (generateContentHash : string -> Z -> string)
    (config : FileNaming.NamingConfig) :
  (forall id1 id2,
      FileNaming.getBundleFilename id1 = FileNaming.getBundleFilename id2 ->
      id1 = id2) /\
  (FileNaming.hashFileNames config = false ->
   forall id1 id2 js1 js2,
     FileNaming.getCoreFilename generateContentHash config id1 js1 =
       FileNaming.getCoreFilename generateContentHash config id2 js2 ->
     id1 = id2) /\
  (FileNaming.hashFileNames config = true ->
   forall id1 id2 js,
     FileNaming.getCoreFilename generateContentHash config id1 js =
       FileNaming.getCoreFilename generateContentHash config id2 js).
Proof.
  unfold FileNaming.getBundleFilename, FileNaming.getCoreFilename.
  split; [|split].
  - intros id1 id2. apply append_inv_tail.
  - intros -> id1 id2 js1 js2. apply infixed_inj.
  - intros -> id1 id2 js. reflexivity.
Qed.

(* ================================================================== *)
(** ** The further properties at work *)

Ltac distinct_strings :=
  repeat (constructor; [simpl; intuition discriminate|]); constructor.

Ltac classified_sample :=
  let m := fresh "m" in
  intros m; simpl; intuition (subst; discriminate).

(** Sorting the validated bundles of the sample declaration keeps them
    consistent. *)
Lemma sortBundles_keeps_consistent_witness :
  Forall consistent (validateBundleModules [Sample.preliminary]) /\
  sortBundles (validateBundleModules [Sample.preliminary]) =
    Return [createManifestBundle [Sample.aBtn];
            createManifestBundle [Sample.aCard];
            createManifestBundle [Sample.aIcon]] /\
  Forall consistent
    [createManifestBundle [Sample.aBtn]; createManifestBundle [Sample.aCard];
     createManifestBundle [Sample.aIcon]].
Proof.
  assert (H1 : Forall consistent (validateBundleModules [Sample.preliminary]))
    by apply validated_consistent.
  assert (H2 : sortBundles (validateBundleModules [Sample.preliminary]) =
               Return [createManifestBundle [Sample.aBtn];
                       createManifestBundle [Sample.aCard];
                       createManifestBundle [Sample.aIcon]]) by reflexivity.
  split; [exact H1|]. split; [exact H2|].
  exact (sortBundles_keeps_consistent _ _ H1 H2).
Defined.

(** Two bundles, given in either order. *)
Lemma sortBundles_ignores_bundle_order_witness :
  sortBundles [createManifestBundle [Sample.aIcon];
               createManifestBundle [Sample.aCard; Sample.aBtn]] =
    sortBundles [createManifestBundle [Sample.aCard; Sample.aBtn];
                 createManifestBundle [Sample.aIcon]].
Proof.
  apply sortBundles_ignores_bundle_order.
  - apply perm_swap.
  - repeat constructor; discriminate.
  - vm_compute. distinct_strings.
Defined.

(** One bundle, its modules given in either order. *)
Lemma sortBundles_ignores_module_order_witness :
  sortBundles [createManifestBundle [Sample.aCard; Sample.aBtn]] =
    sortBundles [createManifestBundle [Sample.aBtn; Sample.aCard]].
Proof.
  apply sortBundles_ignores_module_order.
  - constructor; [|constructor]. split; [apply perm_swap | reflexivity].
  - constructor; [|constructor]. simpl. distinct_strings.
Defined.

(** A bundle of two scoped modules. *)
Lemma validateManifestBundle_keeps_uniform_witness :
  validateManifestBundle []
    (createManifestBundle [Sample.aCard; Sample.aCard]) =
    [] ++ [createManifestBundle [Sample.aCard; Sample.aCard]].
Proof.
  apply validateManifestBundle_keeps_uniform.
  - discriminate.
  - left. exists (Some ScopedCss). simpl. intuition (subst; reflexivity).
Defined.

(** The sample bundle, validated twice. *)
Lemma validateBundleModules_idempotent_witness :
  validateBundleModules (validateBundleModules [Sample.preliminary]) =
    validateBundleModules [Sample.preliminary].
Proof.
  apply validateBundleModules_idempotent.
  constructor; [|constructor]. classified_sample.
Defined.

(** The sample bundle is turned into three bundles. *)
Lemma validateManifestBundle_growth_witness :
  List.length (validateManifestBundle [] Sample.preliminary) <= 3.
Proof.
  assert (Hne : moduleFiles Sample.preliminary <> []) by discriminate.
  assert (Hc : classified (moduleFiles Sample.preliminary))
    by classified_sample.
  exact (proj2 (validateManifestBundle_growth [] Sample.preliminary Hne) Hc).
Defined.

(** The module bundled for the button's tag when two modules of the
    list carry it: the earlier one. *)
Lemma getManifestBundles_bundles_known_modules_witness :
  (Sample.modulesWithDuplicate =
     [Sample.aCard; Sample.aBtn; Sample.aBtnLater; Sample.aIcon] /\
   tagOf Sample.aBtnLater = tagOf Sample.aBtn /\
   Sample.aBtnLater <> Sample.aBtn) /\
  In Sample.aBtn Sample.modulesWithDuplicate /\
  (exists l1 l2,
      Sample.modulesWithDuplicate = l1 ++ Sample.aBtn :: l2 /\
      forall x, In x l1 -> tagOf x <> tagOf Sample.aBtn) /\
  findModule Sample.modulesWithDuplicate (tagOf Sample.aBtn) =
    Some Sample.aBtn /\
  In (tagOf Sample.aBtn) (flat_map componentsOf [Sample.declaration]).
Proof.
  split; [split; [reflexivity | split; [reflexivity | discriminate]]|].
  apply (getManifestBundles_bundles_known_modules Sample.modulesWithDuplicate
           [Sample.declaration] [] Sample.preliminary Sample.aBtn).
  - left. reflexivity.
  - left. reflexivity.
Defined.

(** The sample declaration with its tags in another order. *)
Lemma prepared_bundles_ignore_tag_order_witness :
  sortBundles (validateBundleModules
    (fst (getManifestBundles Sample.modules [Sample.declaration] []))) =
  sortBundles (validateBundleModules
    (fst (getManifestBundles Sample.modules
            [mkBundle (Some ["a-icon"; "a-btn"; "a-card"])] []))).
Proof.
  apply prepared_bundles_ignore_tag_order.
  - constructor; [|constructor]. unfold componentsOf. simpl.
    apply Permutation_sym.
    change ["a-btn"; "a-card"; "a-icon"]
      with (["a-btn"; "a-card"] ++ "a-icon" :: []).
    apply Permutation_cons_app.
    apply Permutation_refl.
  - classified_sample.
  - constructor; [|constructor]. simpl. distinct_strings.
Defined.

(** Two declarations, in either order. *)
Lemma prepared_bundles_ignore_declaration_order_witness :
  sortBundles (validateBundleModules
    (fst (getManifestBundles Sample.modules
            [mkBundle (Some ["a-icon"]); mkBundle (Some ["a-btn"; "a-card"])]
            []))) =
  sortBundles (validateBundleModules
    (fst (getManifestBundles Sample.modules
            [mkBundle (Some ["a-btn"; "a-card"]); mkBundle (Some ["a-icon"])]
            []))).
Proof.
  apply prepared_bundles_ignore_declaration_order.
  - apply perm_swap.
  - simpl. distinct_strings.
Defined.

(** Every step enabled and failing: five diagnostics. *)
Lemma optimizeHtml_reports_every_failure_witness :
  List.length
    (Hydrate.results
       (snd (Hydrate.optimizeHtml unit (Hydrate.skip unit)
               (Hydrate.failsWith "e1") (Hydrate.failsWith "e2")
               (Hydrate.failsWith "e3") (Hydrate.failsWith "e4")
               (Hydrate.failsWith "e5") false
               (Hydrate.mkHydrateOptions None None None (Some 5000%Z) None)
               (Hydrate.mkState tt (Sample.context []) [])))) = 5.
Proof.
  rewrite (optimizeHtml_reports_every_failure (Hydrate.skip unit)
             "e1" "e2" "e3" "e4" "e5" false
             (Hydrate.mkHydrateOptions None None None (Some 5000%Z) None)
             (Hydrate.mkState tt (Sample.context []) [])
             (Hydrate.mkState tt (Sample.context []) []) eq_refl).
  reflexivity.
Defined.

(** Nothing fails: no diagnostic. *)
Lemma optimizeHtml_quiet_when_nothing_fails_witness :
  Hydrate.results
    (snd (Hydrate.optimizeHtml unit (Hydrate.skip unit) (Hydrate.skip unit)
            (Hydrate.skip unit) (Hydrate.skip unit) (Hydrate.skip unit)
            (Hydrate.skip unit) false
            (Hydrate.mkHydrateOptions None None None None None)
            (Hydrate.mkState tt (Sample.context []) []))) = [].
Proof.
  apply (optimizeHtml_quiet_when_nothing_fails (Hydrate.skip unit)
           (Hydrate.skip unit) (Hydrate.skip unit) (Hydrate.skip unit)
           (Hydrate.skip unit) (Hydrate.skip unit) false
           (Hydrate.mkHydrateOptions None None None None None)
           (Hydrate.mkState tt (Sample.context []) [])).
  intros step Hin s. simpl in Hin.
  intuition (subst; reflexivity).
Defined.

(** A failing first collaborator, then a failing second one. *)
Lemma bundleBody_stops_at_first_failure_witness :
  fst (bundleBody Sample.failing Sample.quiet Sample.quiet Sample.config
         (mkWorld (Sample.context []) [])) = Throw "style bundling failed" /\
  fst (bundleBody Sample.quiet Sample.failing Sample.quiet Sample.config
         (mkWorld (Sample.context []) [])) = Throw "style bundling failed".
Proof.
  split.
  - rewrite (proj1 (bundleBody_stops_at_first_failure Sample.failing
                      Sample.quiet Sample.quiet Sample.config
                      (mkWorld (Sample.context []) []))
               "style bundling failed"
               (handedOver (mkWorld (Sample.context []) [])) eq_refl).
    reflexivity.
  - rewrite (proj2 (bundleBody_stops_at_first_failure Sample.quiet
                      Sample.failing Sample.quiet Sample.config
                      (mkWorld (Sample.context []) []))
               (handedOver (mkWorld (Sample.context []) []))
               "style bundling failed"
               (handedOver (mkWorld (Sample.context []) []))
               eq_refl eq_refl).
    reflexivity.
Defined.

(** The sample modules, in two orders. *)
Lemma findPrimaryEncapsulation_ignores_order_witness :
  option_map modeOf
    (findPrimaryEncapsulation [Sample.aBtn; Sample.aCard; Sample.aCard]) =
  option_map modeOf
    (findPrimaryEncapsulation [Sample.aCard; Sample.aBtn; Sample.aCard]).
Proof.
  apply findPrimaryEncapsulation_ignores_order. apply perm_swap.
Defined.
